(** * home-energy: the binary protocol layer of the collector scripts

    A shallow embedding of the byte-level code of [deye_modbus.py] (Modbus
    frame codec, register decoder, AT transport session) and of the
    per-record OBIS mapping of [tibber_raw.py], with the properties the
    specification states about them.

    Python values are modelled as follows:
    - [int] is [Z] (unbounded);
    - [bytes] / [bytearray] is [list byte];
    - [str] is a list of Unicode code points ([list N]);
    - a [dict] is a [gmap];
    - a call that can raise returns a [result]. *)

From Stdlib Require Import ZArith List Strings.String Strings.Ascii Strings.Byte Lia ZifyBool.
From stdpp Require Import base option list gmap strings.

Local Open Scope Z_scope.

(** ** Exceptions and results *)

(** The exception classes the modelled code can see.  All of them derive
    from [Exception]; [SocketTimeout] ([socket.timeout]) also derives from
    [OSError], and [UnicodeDecodeError] is a [ValueError]. *)
Inductive exn : Type :=
  | ValueError (msg : string)
  | KeyError
  | TypeError
  | AttributeError
  | OverflowError
  | OSError
  | SocketTimeout
  | OtherException (name : string).

Inductive result (A : Type) : Type :=
  | Ok (a : A)
  | Raise (e : exn).
Arguments Ok {A} a.
Arguments Raise {A} e.

#[global] Instance result_ret : MRet result := fun A a => Ok a.
#[global] Instance result_bind : MBind result := fun A B f r =>
  match r with
  | Ok a => f a
  | Raise e => Raise e
  end.

(** ** Bytes, strings and the builtins the code uses *)

Abbreviation bytes := (list byte).
Abbreviation pystr := (list N).

#[global] Instance byte_eq_decision : EqDecision byte := Byte.byte_eq_dec.

Definition byte_to_Z (b : byte) : Z := Z.of_N (Byte.to_N b).

(** The byte with value [z mod 256]. *)
Definition byte_of_Z (z : Z) : byte :=
  default x00 (Byte.of_N (Z.to_N (z mod 256))).

(** A string literal, as code points. *)
Definition lit (s : string) : pystr :=
  map (fun a => N_of_ascii a) (list_ascii_of_string s).

(** A bytes literal [b"..."]. *)
Definition blit (s : string) : bytes := list_byte_of_string s.

(** [l[i:j]] with Python's treatment of negative and out-of-range bounds;
    [None] is an omitted bound. *)
Definition clamp_index (len i : Z) : Z :=
  if i <? 0 then Z.max 0 (i + len) else Z.min i len.

Definition py_slice {A} (l : list A) (i j : option Z) : list A :=
  let len := Z.of_nat (length l) in
  let lo := clamp_index len (default 0 i) in
  let hi := clamp_index len (default len j) in
  take (Z.to_nat (hi - lo)) (drop (Z.to_nat lo) l).

(** [int.from_bytes(bs, "big")] and [int.from_bytes(bs, "little")]. *)
Definition from_bytes_big (bs : bytes) : Z :=
  fold_left (fun acc b => acc * 256 + byte_to_Z b) bs 0.

Definition from_bytes_little (bs : bytes) : Z :=
  fold_right (fun b acc => byte_to_Z b + 256 * acc) 0 bs.

(** [bs.startswith(prefix)] *)
Fixpoint startswith (bs prefix : bytes) : bool :=
  match prefix, bs with
  | [], _ => true
  | p :: prefix', b :: bs' => Byte.eqb p b && startswith bs' prefix'
  | _ :: _, [] => false
  end.

(** Value of a hexadecimal digit, either case. *)
Definition hex_value (c : N) : option Z :=
  if ((48 <=? c) && (c <=? 57))%N then Some (Z.of_N c - 48)
  else if ((97 <=? c) && (c <=? 102))%N then Some (Z.of_N c - 87)
  else if ((65 <=? c) && (c <=? 70))%N then Some (Z.of_N c - 55)
  else None.

(** The lower-case hexadecimal digit of [d], [0 <= d < 16]. *)
Definition hex_digit (d : Z) : N :=
  if d <? 10 then Z.to_N (48 + d) else Z.to_N (87 + d).

(** The whitespace [fromhex] skips between bytes: space, \t \n \v \f \r. *)
Definition hex_isspace (c : N) : bool :=
  ((c =? 32) || ((9 <=? c) && (c <=? 13)))%N.

Definition fromhex_error : exn :=
  ValueError "non-hexadecimal number found in fromhex() arg".

(** [bytearray.fromhex(s)] / [bytes.fromhex(s)]: two hexadecimal digits per
    byte, whitespace allowed between bytes, [ValueError] otherwise. *)
Fixpoint fromhex (s : pystr) : result bytes :=
  match s with
  | [] => Ok []
  | c :: rest =>
      if hex_isspace c then fromhex rest
      else
        match hex_value c, rest with
        | Some top, d :: rest' =>
            match hex_value d with
            | Some bot => bs ← fromhex rest'; Ok (byte_of_Z (top * 16 + bot) :: bs)
            | None => Raise fromhex_error
            end
        | _, _ => Raise fromhex_error
        end
  end.

(** Digits of [n >= 0] in [base], most significant first, no prefix. *)
Fixpoint int_digits (base : Z) (fuel : nat) (n : Z) (acc : pystr) : pystr :=
  match fuel with
  | O => acc
  | S fuel' =>
      let acc' := hex_digit (n mod base) :: acc in
      if n / base =? 0 then acc' else int_digits base fuel' (n / base) acc'
  end.

(** The digits of [format(n, "x")] for [n >= 0]. *)
Definition py_hex (n : Z) : pystr :=
  int_digits 16 (S (Z.to_nat (Z.log2 n))) n [].

(** [str(n)] for an [int]. *)
Definition py_str_int (n : Z) : pystr :=
  if n <? 0 then 45%N :: int_digits 10 (S (Z.to_nat (Z.log2 (- n)))) (- n) []
  else int_digits 10 (S (Z.to_nat (Z.log2 n))) n [].

(** Left padding with ['0'] up to [width] characters. *)
Definition zero_pad (width : nat) (s : pystr) : pystr :=
  replicate (width - length s)%nat 48%N ++ s.

(** ["{:04x}".format(n)]: sign-aware zero padding to four characters. *)
Definition format_04x (n : Z) : pystr :=
  if n <? 0 then 45%N :: zero_pad 3 (py_hex (- n)) else zero_pad 4 (py_hex n).

(** [bs.hex()] *)
Definition bytes_hex (bs : bytes) : pystr :=
  flat_map (fun b => [hex_digit (byte_to_Z b / 16); hex_digit (byte_to_Z b mod 16)]) bs.

(** ** CRC-16/MODBUS

    [libscrc.modbus] is a function of the external [libscrc] package; it
    computes the standard CRC-16/MODBUS, written here bit by bit: initial
    value 0xFFFF, reflected polynomial 0xA001, no final xor, a register of
    16 bits. *)
Definition crc16_shift (crc : Z) : Z :=
  if Z.testbit crc 0 then Z.lxor (Z.shiftr crc 1) 0xA001 else Z.shiftr crc 1.

Definition crc16_update (crc : Z) (b : byte) : Z :=
  Nat.iter 8 crc16_shift (Z.lxor crc (byte_to_Z b)).

Definition libscrc_modbus (data : bytes) : Z :=
  fold_left crc16_update data 0xFFFF.

(** ** Frame codec ([deye_modbus.py]) *)

Definition build_modbus_read_holding_registers_request_frame
    (first_reg last_reg : Z) : result bytes :=
  let reg_count := last_reg - first_reg + 1 in
  fromhex (lit "0103" ++ format_04x first_reg ++ format_04x reg_count).

Definition frame_too_short : exn := ValueError "Modbus frame is too short".
Definition frame_crc_invalid : exn := ValueError "Modbus frame crc is not valid".

(** The [while a < reg_count] loop; it runs [reg_count] times, which is the
    fuel given by the caller. *)
Fixpoint parse_registers (fuel : nat) (frame : bytes) (first_reg reg_count a : Z)
    (registers : gmap Z bytes) : gmap Z bytes :=
  match fuel with
  | O => registers
  | S fuel' =>
      if a <? reg_count then
        let p1 := 3 + a * 2 in
        let p2 := p1 + 2 in
        parse_registers fuel' frame first_reg reg_count (a + 1)
          (<[a + first_reg := py_slice frame (Some p1) (Some p2)]> registers)
      else registers
  end.

Definition parse_modbus_read_holding_registers_response
    (frame : bytes) (first_reg last_reg : Z) : result (gmap Z bytes) :=
  let reg_count := last_reg - first_reg + 1 in
  let expected_frame_data_len := 2 + 1 + reg_count * 2 in
  if Z.of_nat (length frame) <? expected_frame_data_len + 2 then
    Raise frame_too_short
  else
    let actual_crc :=
      from_bytes_little
        (py_slice frame (Some expected_frame_data_len) (Some (expected_frame_data_len + 2))) in
    let expected_crc := libscrc_modbus (py_slice frame (Some 0) (Some expected_frame_data_len)) in
    if negb (actual_crc =? expected_crc) then
      Raise frame_crc_invalid
    else
      Ok (parse_registers (Z.to_nat reg_count) frame first_reg reg_count 0 ∅).

(** ** Register decoder ([deye_modbus.py]) *)

(** [response[address]]: a missing key raises [KeyError]. *)
Definition getitem (response : gmap Z bytes) (address : Z) : result bytes :=
  match response !! address with
  | Some v => Ok v
  | None => Raise KeyError
  end.

Definition read_unit16 (response : gmap Z bytes) (address : Z) : result Z :=
  v ← getitem response address;
  Ok (Z.land (from_bytes_big v) 0xffff).

Definition read_unit32 (response : gmap Z bytes) (address : Z) : result Z :=
  v ← getitem response address;
  Ok (Z.land (from_bytes_big v) 0xffffffff).

Definition read_int16 (response : gmap Z bytes) (address : Z) : result Z :=
  v ← getitem response address;
  let value := Z.land (from_bytes_big v) 0xffff in
  Ok (if value >? 32767 then value - 65536 else value).

Definition read_int32 (response : gmap Z bytes) (address : Z) : result Z :=
  value ← read_unit32 response address;
  Ok (if value >? 2147483647 then value - 4294967296 else value).

(** ** Text decoding *)

Definition utf8_error : exn := ValueError "'utf-8' codec can't decode byte".

Definition is_continuation (b : byte) : bool :=
  (128 <=? byte_to_Z b) && (byte_to_Z b <=? 191).

(** Payload bits of a continuation byte. *)
Definition cont_bits (b : byte) : Z := byte_to_Z b - 128.

(** [bs.decode("utf-8")], strict: overlong forms, surrogates and code
    points above U+10FFFF raise [UnicodeDecodeError] (a [ValueError]). *)
Fixpoint decode_utf8 (bs : bytes) : result pystr :=
  match bs with
  | [] => Ok []
  | b0 :: r0 =>
      let z0 := byte_to_Z b0 in
      if z0 <? 128 then s ← decode_utf8 r0; Ok (Z.to_N z0 :: s)
      else if (192 <=? z0) && (z0 <? 224) then
        match r0 with
        | b1 :: r1 =>
            let cp := (z0 - 192) * 64 + cont_bits b1 in
            if is_continuation b1 && (128 <=? cp)
            then s ← decode_utf8 r1; Ok (Z.to_N cp :: s)
            else Raise utf8_error
        | _ => Raise utf8_error
        end
      else if (224 <=? z0) && (z0 <? 240) then
        match r0 with
        | b1 :: b2 :: r2 =>
            let cp := ((z0 - 224) * 64 + cont_bits b1) * 64 + cont_bits b2 in
            if is_continuation b1 && is_continuation b2 && (2048 <=? cp)
               && negb ((55296 <=? cp) && (cp <=? 57343))
            then s ← decode_utf8 r2; Ok (Z.to_N cp :: s)
            else Raise utf8_error
        | _ => Raise utf8_error
        end
      else if (240 <=? z0) && (z0 <? 248) then
        match r0 with
        | b1 :: b2 :: b3 :: r3 =>
            let cp := (((z0 - 240) * 64 + cont_bits b1) * 64 + cont_bits b2) * 64
                      + cont_bits b3 in
            if is_continuation b1 && is_continuation b2 && is_continuation b3
               && (65536 <=? cp) && (cp <=? 1114111)
            then s ← decode_utf8 r3; Ok (Z.to_N cp :: s)
            else Raise utf8_error
        | _ => Raise utf8_error
        end
      else Raise utf8_error
  end.

(** [bytes(s, "ascii")] *)
Fixpoint encode_ascii (s : pystr) : result bytes :=
  match s with
  | [] => Ok []
  | c :: rest =>
      if (c <? 128)%N
      then bs ← encode_ascii rest; Ok (byte_of_Z (Z.of_N c) :: bs)
      else Raise (ValueError "'ascii' codec can't encode character")
  end.

(** ** AT response extraction ([DeyeAtConnector.extract_modbus_respose]) *)

Definition extract_modbus_respose (at_cmd_response : bytes) : result bytes :=
  extracted_modus_response ←
    decode_utf8
      (py_slice (filter (fun b => b ≠ x10) at_cmd_response) (Some 4) (Some (-4)));
  let extracted_modus_response :=
    if (Z.of_nat (length extracted_modus_response) >? 4)
       && bool_decide (py_slice extracted_modus_response (Some (-4)) None = lit "0000")
    then py_slice extracted_modus_response (Some 0) (Some (-4))
    else extracted_modus_response in
  fromhex extracted_modus_response.

(** ** AT transport session ([DeyeAtConnector])

    The datagram socket is the environment: what successive calls of
    [socket.socket], [sendto] and [recv] do is given by scripts that the
    session consumes.  When a script is exhausted the socket opens, a send
    succeeds and a receive times out.  [time.sleep] and logging have no
    effect on the values computed and are left out.  Only exceptions
    deriving from [Exception] are modelled, and [close] does not raise. *)

Inductive recv_event : Type :=
  | RecvData (data : bytes)      (* a datagram, possibly empty *)
  | RecvRaise (e : exn).

Record world : Type := {
  reachable : bool;                       (* self.__reachable *)
  socket_script : list bool;              (* true: socket.socket() succeeds *)
  sendto_script : list (option exn);      (* None: the send succeeds *)
  recv_script : list recv_event;
  sendto_calls : list bytes;              (* arguments of the sendto calls so far *)
  socket_open : bool;
  modbus_response : option bytes          (* the local variable of send_request *)
}.

Definition M (A : Type) : Type := world → result A * world.

#[global] Instance M_ret : MRet M := fun A a w => (Ok a, w).
#[global] Instance M_bind : MBind M := fun A B f m w =>
  match m w with
  | (Ok a, w') => f a w'
  | (Raise e, w') => (Raise e, w')
  end.

(** A pure computation that may raise, run inside the session. *)
Definition lift {A} (r : result A) : M A := fun w => (r, w).

(** Assignment to the local variable [modbus_response]. *)
Definition assign_modbus_response (v : option bytes) (w : world) : world :=
  {| reachable := reachable w; socket_script := socket_script w;
     sendto_script := sendto_script w; recv_script := recv_script w;
     sendto_calls := sendto_calls w; socket_open := socket_open w;
     modbus_response := v |}.

Definition set_modbus_response (v : option bytes) : M () := fun w =>
  (Ok (), assign_modbus_response v w).

(** [client_socket.sendto(at_command, (host, port))] *)
Definition sendto (at_command : bytes) : M () := fun w =>
  let w' := {| reachable := reachable w; socket_script := socket_script w;
               sendto_script := tail (sendto_script w); recv_script := recv_script w;
               sendto_calls := sendto_calls w ++ [at_command];
               socket_open := socket_open w; modbus_response := modbus_response w |} in
  match sendto_script w with
  | Some e :: _ => (Raise e, w')
  | _ => (Ok (), w')
  end.

(** [client_socket.recv(1024)] *)
Definition recv : M bytes := fun w =>
  let w' := {| reachable := reachable w; socket_script := socket_script w;
               sendto_script := sendto_script w; recv_script := tail (recv_script w);
               sendto_calls := sendto_calls w;
               socket_open := socket_open w; modbus_response := modbus_response w |} in
  match recv_script w with
  | RecvData data :: _ => (Ok data, w')
  | RecvRaise e :: _ => (Raise e, w')
  | [] => (Raise SocketTimeout, w')
  end.

(** [client_socket.close()] *)
Definition close (w : world) : world :=
  {| reachable := reachable w; socket_script := socket_script w;
     sendto_script := sendto_script w; recv_script := recv_script w;
     sendto_calls := sendto_calls w; socket_open := false;
     modbus_response := modbus_response w |}.

(** Whether the next [socket.socket(...)] call succeeds. *)
Definition socket_opens (w : world) : bool :=
  match socket_script w with false :: _ => false | _ => true end.

(** [__create_socket]: [None] when the socket cannot be opened ([OSError]);
    the reachability flag follows the outcome. *)
Definition create_socket (w : world) : option () * world :=
  let opened := socket_opens w in
  (if opened then Some () else None,
   {| reachable := opened; socket_script := tail (socket_script w);
      sendto_script := sendto_script w; recv_script := recv_script w;
      sendto_calls := sendto_calls w; socket_open := opened;
      modbus_response := modbus_response w |}).

Definition send_at_command (at_command : bytes) : M () := sendto at_command.

(** [__receive_at_response]: up to [attempts] receives.  The handler of
    [OSError] reads [self.config], an attribute the class does not have, so
    it raises [AttributeError] itself. *)
Fixpoint receive_at_response_loop (attempts : nat) : M (option bytes) :=
  match attempts with
  | O => mret None
  | S attempts' => fun w =>
      match recv w with
      | (Ok data, w') =>
          match data with
          | _ :: _ => (Ok (Some data), w')
          | [] => receive_at_response_loop attempts' w'
          end
      | (Raise SocketTimeout, w') => receive_at_response_loop attempts' w'
      | (Raise OSError, w') => (Raise AttributeError, w')
      | (Raise _, w') => (Ok None, w')
      end
  end.

Definition receive_at_response : M (option bytes) := receive_at_response_loop 5.

Definition authenticate : M () :=
  send_at_command (blit "WIFIKIT-214028-READ");;
  receive_at_response;;
  mret ().

(** [b"AT+Q\n"] *)
Definition quit_command : bytes := blit "AT+Q" ++ [x0a].

Definition deauthenticate : M () :=
  send_at_command quit_command.

(** The AT command carrying the request frame:
    [bytes(f"AT+INVDATA={int(len(hex) / 2)},{hex}\n", "ascii")]. *)
Definition invdata_command (req_frame : bytes) : result bytes :=
  let modbus_frame_str := bytes_hex req_frame in
  encode_ascii
    (lit "AT+INVDATA=" ++ py_str_int (Z.of_nat (length modbus_frame_str) / 2)
       ++ lit "," ++ modbus_frame_str ++ [10%N]).

(** How the [try] block of [send_request] ends when it does not raise. *)
Inductive control : Type :=
  | Return (v : option bytes)    (* a [return] statement inside the block *)
  | Fallthrough.                 (* the end of the block is reached *)

(** The block up to and including the receive of the AT response. *)
Definition session_until_response (req_frame : bytes) : M (option bytes) :=
  authenticate;;
  send_at_command (blit "+ok");;
  at_command ← lift (invdata_command req_frame);
  send_at_command at_command;;
  receive_at_response.

(** [not at_response]: [None] or an empty bytes object. *)
Definition is_falsy (at_response : option bytes) : bool :=
  match at_response with
  | None | Some [] => true
  | Some (_ :: _) => false
  end.

(** The rest of the block: interpretation of the response, deauthenticate. *)
Definition handle_response (at_response : option bytes) : M control :=
  let r := default [] at_response in
  if is_falsy at_response || startswith r (blit "+ok=no data") then mret (Return None)
  else if startswith r (blit "+ERR=") then mret (Return None)
  else
    (if startswith r (blit "+ok=")
     then v ← lift (extract_modbus_respose r); set_modbus_response (Some v)
     else mret ());;
    deauthenticate;;
    mret Fallthrough.

Definition session_body (req_frame : bytes) : M control :=
  at_response ← session_until_response req_frame;
  handle_response at_response.

(** [send_request]: [except Exception] swallows what the block raises,
    [finally] closes the socket, and the value of [modbus_response] at that
    point is returned unless the block executed a [return]. *)
Definition send_request (req_frame : bytes) : M (option bytes) := fun w =>
  match create_socket (assign_modbus_response None w) with
  | (None, w1) => (Ok None, w1)
  | (Some _, w1) =>
      match session_body req_frame w1 with
      | (Ok (Return v), w2) => (Ok v, close w2)
      | (Ok Fallthrough, w2) => (Ok (modbus_response w2), close w2)
      | (Raise _, w2) => (Ok (modbus_response w2), close w2)
      end
  end.

(** The world in which the session body starts: [modbus_response] is
    [None] and the socket has been requested. *)
Definition session_start (w : world) : world :=
  (create_socket (assign_modbus_response None w)).2.

(** The bytes handed to the connector by [read_holding_registers]: the
    request frame followed by its CRC, formatted as four hexadecimal digits
    and reversed. *)
Definition request_with_crc (first_reg last_reg : Z) : result bytes :=
  modbus_frame ← build_modbus_read_holding_registers_request_frame first_reg last_reg;
  modbus_crc ← fromhex (format_04x (libscrc_modbus modbus_frame));
  Ok (modbus_frame ++ reverse modbus_crc).

Definition read_holding_registers (first_reg last_reg : Z) : M (option (gmap Z bytes)) :=
  request ← lift (request_with_crc first_reg last_reg);
  modbus_resp_frame ← send_request request;
  match modbus_resp_frame with
  | None => mret None
  | Some frame =>
      registers ← lift (parse_modbus_read_holding_registers_response frame first_reg last_reg);
      mret (Some registers)
  end.

(** ** OBIS record mapping ([tibber_raw.py]) *)

(** [needle in hay] for two strings: substring search. *)
Fixpoint str_startswith (s p : pystr) : bool :=
  match p, s with
  | [], _ => true
  | c :: p', d :: s' => (c =? d)%N && str_startswith s' p'
  | _ :: _, [] => false
  end.

Fixpoint str_contains (hay needle : pystr) : bool :=
  str_startswith hay needle ||
  match hay with
  | [] => false
  | _ :: hay' => str_contains hay' needle
  end.

(** The characters [int()] strips around a number: ASCII whitespace and
    the whitespace code points above U+007F. *)
Definition py_isspace (c : N) : bool :=
  ((9 <=? c) && (c <=? 13) || (c =? 32) || (c =? 133) || (c =? 160)
   || (c =? 5760) || (8192 <=? c) && (c <=? 8202) || (c =? 8232) || (c =? 8233)
   || (c =? 8239) || (c =? 8287) || (c =? 12288))%N.

Fixpoint lstrip (s : pystr) : pystr :=
  match s with
  | c :: rest => if py_isspace c then lstrip rest else s
  | [] => []
  end.

Definition strip (s : pystr) : pystr :=
  reverse (lstrip (reverse (lstrip s))).

(** The digits of an [int()] literal: digits below [base], single
    underscores between digits.  [allow_us] says whether an underscore may
    come next, [seen] whether a digit was read. *)
Fixpoint parse_digits (base : Z) (s : pystr) (acc : Z) (allow_us seen : bool) : option Z :=
  match s with
  | [] => if allow_us && seen then Some acc else None
  | c :: rest =>
      if (c =? 95)%N then
        if allow_us then parse_digits base rest acc false seen else None
      else
        match hex_value c with
        | Some d => if d <? base then parse_digits base rest (acc * base + d) true true else None
        | None => None
        end
  end.

Definition int_error : exn := ValueError "invalid literal for int()".

(** [int(s)] and [int(s, 16)] on text made of ASCII digits, sign,
    underscores and surrounding whitespace; with base 16 a [0x] prefix is
    accepted.  Decimal digits of other scripts are not part of this model
    (the values decoded from the meter are hexadecimal text). *)
Definition py_int (base : Z) (s : pystr) : result Z :=
  let s := strip s in
  let '(negative, s) :=
    match s with
    | 45%N :: s' => (true, s')
    | 43%N :: s' => (false, s')
    | _ => (false, s)
    end in
  let '(prefixed, s) :=
    match s with
    | 48%N :: x :: s' =>
        if (base =? 16) && ((x =? 120) || (x =? 88))%N then (true, s') else (false, s)
    | _ => (false, s)
    end in
  match parse_digits base s 0 prefixed false with
  | Some n => Ok (if negative then - n else n)
  | None => Raise int_error
  end.

(** What a decoded record carries as its value: an integer or, for octet
    strings, the hexadecimal text of the bytes. *)
Inductive obis_value : Type :=
  | VInt (n : Z)
  | VStr (s : pystr).

Record obis_entry : Type := {
  obis : pystr;
  value : obis_value
}.

(** The meter number:
    <LF><counter in hex><3 ASCII as HEX><3 digits number><HEX as integer>. *)
Definition parse_meter (v : obis_value) : result pystr :=
  match v with
  | VInt _ => Raise TypeError
  | VStr obis_value =>
      let obis_value := py_slice obis_value (Some 2) None in
      meter_counter ← py_int 10 (py_slice obis_value (Some 0) (Some 2));
      meter_man_bytes ← fromhex (py_slice obis_value (Some 2) (Some 8));
      meter_man ← decode_utf8 meter_man_bytes;
      let meter_unk := py_slice obis_value (Some 8) (Some 11) in
      meter_number ← py_int 16 (py_slice obis_value (Some 11) None);
      Ok (py_str_int meter_counter ++ meter_man ++ meter_unk ++ py_str_int meter_number)
  end.

Section ObisMapping.

(** Python floats and the two float operations the mapping uses are kept
    abstract: the literal of a decimal constant, [int * float] (which can
    raise [OverflowError]) and [round(x, ndigits)]. *)
Variable pyfloat : Type.
Variable float_literal : string → pyfloat.
Variable int_times_float : Z → pyfloat → result pyfloat.
Variable round_float : pyfloat → Z → pyfloat.

Inductive scale : Type :=
  | ScaleInt (k : Z)
  | ScaleFloat (f : pyfloat).

(** A stored measurement. *)
Inductive number : Type :=
  | NInt (n : Z)
  | NFloat (x : pyfloat).

Definition obis_mapping : gmap pystr (pystr * scale) :=
  list_to_map
    [ (lit "0100010800ff", (lit "energy_total_import", ScaleFloat (float_literal "0.0001")));
      (lit "0100020800ff", (lit "energy_total_export", ScaleFloat (float_literal "0.0001")));
      (lit "0100100700ff", (lit "power_total", ScaleInt 1));
      (lit "0100240700ff", (lit "power_l1", ScaleInt 1));
      (lit "0100380700ff", (lit "power_l2", ScaleInt 1));
      (lit "01004c0700ff", (lit "power_l3", ScaleInt 1));
      (lit "01001f0700ff", (lit "current_l1", ScaleFloat (float_literal "0.01")));
      (lit "0100330700ff", (lit "current_l2", ScaleFloat (float_literal "0.01")));
      (lit "0100470700ff", (lit "current_l3", ScaleFloat (float_literal "0.01")));
      (lit "0100200700ff", (lit "voltage_l1", ScaleFloat (float_literal "0.1")));
      (lit "0100340700ff", (lit "voltage_l2", ScaleFloat (float_literal "0.1")));
      (lit "0100480700ff", (lit "voltage_l3", ScaleFloat (float_literal "0.1")));
      (lit "01000e0700ff", (lit "frequency", ScaleFloat (float_literal "0.1"))) ].

(** [round(obis_value * scale, 3)]: an [int] times an [int] stays an
    [int], which [round] returns unchanged; text cannot be scaled. *)
Definition round_scaled (v : obis_value) (sc : scale) : result number :=
  match v, sc with
  | VInt n, ScaleInt k => Ok (NInt (n * k))
  | VInt n, ScaleFloat f => x ← int_times_float n f; Ok (NFloat (round_float x 3))
  | VStr _, _ => Raise TypeError
  end.

(** The accumulators of the loop: [values] and [meter]. *)
Record measurements : Type := {
  values : gmap pystr number;
  meter : pystr
}.

(** One iteration of the loop over the decoded records. *)
Definition process_obis (st : measurements) (entry : obis_entry) : result measurements :=
  let obis_number := obis entry in
  let obis_value := value entry in
  if str_contains (lit "0100600100ff") obis_number then
    meter' ← parse_meter obis_value;
    Ok {| values := values st; meter := meter' |}
  else
    match obis_mapping !! obis_number with
    | Some (name, sc) =>
        x ← round_scaled obis_value sc;
        Ok {| values := <[name := x]> (values st); meter := meter st |}
    | None => Ok st
    end.

(** The whole loop, from empty [values] and [meter = ""]. *)
Definition process_all (entries : list obis_entry) : result measurements :=
  foldl (fun st entry => st ← st; process_obis st entry)
        (Ok {| values := ∅; meter := [] |}) entries.

End ObisMapping.

Arguments ScaleInt {pyfloat} k.
Arguments ScaleFloat {pyfloat} f.
Arguments NInt {pyfloat} n.
Arguments NFloat {pyfloat} x.
Arguments values {pyfloat} m.
Arguments meter {pyfloat} m.

(** ** Auxiliary definitions for the statements and proofs below *)

(** Two consecutive registers holding 0x0001 and 0x0002. *)
Definition two_registers : gmap Z bytes :=
  <[63 := [x00; x01]]> (<[64 := [x00; x02]]> ∅).

(** A 16-bit field as two bytes: big-endian (most significant byte first)
    and little-endian. *)
Definition be16 (n : Z) : bytes := [byte_of_Z (n / 256); byte_of_Z n].
Definition le16 (n : Z) : bytes := [byte_of_Z n; byte_of_Z (n / 256)].

(** A response payload followed by its CRC-16/MODBUS, low byte first. *)
Definition with_crc (data : bytes) : bytes := data ++ le16 (libscrc_modbus data).

(** Inverse of [crc16_shift] on 16-bit values: bit 15 of the result tells
    whether the polynomial was applied. *)
Definition crc16_unshift (crc : Z) : Z :=
  if Z.testbit crc 15 then Z.lxor crc 0xA001 * 2 + 1 else crc * 2.

Definition word16 (x : Z) : Prop := 0 <= x < 65536.

(** The integers [start], [start + 1], ..., [count] of them; used to check
    a property on every 16-bit value. *)
Fixpoint zrange (count : nat) (start : Z) : list Z :=
  match count with
  | O => []
  | S count' => start :: zrange count' (start + 1)
  end.

(** ** The AT response extraction in the words of the specification *)

(** Bytes read as text, one character per byte. *)
Definition ascii_text (bs : bytes) : pystr :=
  map (fun b => Z.to_N (byte_to_Z b)) bs.

(** What a call returned, when it returned. *)
Definition returned {A} (r : result A) : option A :=
  match r with
  | Ok a => Some a
  | Raise _ => None
  end.

(** Remove every 0x10 byte; drop the first 4 and the last 4 of the
    remaining bytes; read the rest as ASCII text; remove a trailing "0000"
    when the text is longer than 4 characters and ends with it; decode the
    hexadecimal text into bytes. *)
Definition extract_modbus_respose_spec (at_cmd_response : bytes) : option bytes :=
  let remaining := filter (fun b => b ≠ x10) at_cmd_response in
  let without_first := drop 4 remaining in
  let inner := take (length without_first - 4) without_first in
  let text := ascii_text inner in
  let text :=
    if decide ((4 < length text)%nat ∧ drop (length text - 4) text = lit "0000")
    then take (length text - 4) text
    else text in
  returned (fromhex text).

(** ** Sample sessions *)

(** The request for registers 60 and 61, with its CRC. *)
Definition sample_request : bytes := [x01; x03; x00; x3c; x00; x02; x04; x07].

(** The device answers the authentication and the request, and the send of
    the quit command (the fourth send) fails. *)
Definition world_quit_fails : world :=
  {| reachable := true; socket_script := [];
     sendto_script := [None; None; None; Some OSError];
     recv_script := [RecvData (blit "+ok");
                     RecvData (blit "+ok=010304000100022a32" ++ [x0d; x0a; x0d; x0a])];
     sendto_calls := []; socket_open := false; modbus_response := None |}.

(** The device answers the request with text that is no known reply. *)
Definition world_unrecognised : world :=
  {| reachable := true; socket_script := []; sendto_script := [];
     recv_script := [RecvData (blit "+ok"); RecvData (blit "+busy")];
     sendto_calls := []; socket_open := false; modbus_response := None |}.

(** The first receive after the request fails with an [OSError]. *)
Definition world_receive_fails : world :=
  {| reachable := true; socket_script := []; sendto_script := [];
     recv_script := [RecvData (blit "+ok"); RecvRaise OSError];
     sendto_calls := []; socket_open := false; modbus_response := None |}.

(** A session leaves the local variable [modbus_response] alone. *)
Definition keeps_response {A} (m : M A) : Prop :=
  ∀ w, modbus_response (m w).2 = modbus_response w.

(** ** Auxiliary definitions for the further properties *)

(** ASCII text written as bytes, one byte per character. *)
Definition text_bytes (s : pystr) : bytes :=
  map (fun c => byte_of_Z (Z.of_N c)) s.

(** A reply of the device that carries [frame]: the [+ok=] marker, the
    frame in hexadecimal digits and a trailer. *)
Definition at_reply (frame trailer : bytes) : bytes :=
  blit "+ok=" ++ text_bytes (bytes_hex frame) ++ trailer.

(** The bytes of the command that carries [req_frame]. *)
Definition invdata_bytes (req_frame : bytes) : bytes :=
  blit "AT+INVDATA=" ++ text_bytes (py_str_int (Z.of_nat (length req_frame)))
    ++ blit "," ++ text_bytes (bytes_hex req_frame) ++ [x0a].

(** The commands of a complete session, in the order of the protocol. *)
Definition session_commands (req_frame : bytes) : list bytes :=
  [blit "WIFIKIT-214028-READ"; blit "+ok"; invdata_bytes req_frame; quit_command].

(** A receive that brings nothing: an empty datagram or a timeout. *)
Definition quiet_event (ev : recv_event) : bool :=
  match ev with
  | RecvData [] => true
  | RecvRaise SocketTimeout => true
  | _ => false
  end.

(** What a part of the session may do to the world: call [sendto] with
    [sent], which consumes as many entries of the send script, and consume
    [received] receive events.  The flags and the socket script stay. *)
Definition traffic (sent : list bytes) (received : nat) (w w' : world) : Prop :=
  reachable w' = reachable w ∧ socket_script w' = socket_script w ∧
  socket_open w' = socket_open w ∧
  sendto_calls w' = sendto_calls w ++ sent ∧
  sendto_script w' = drop (length sent) (sendto_script w) ∧
  recv_script w' = drop received (recv_script w).

(** A world with an open socket in which the receives follow [script] and
    nothing was sent yet. *)
Definition world_receiving (script : list recv_event) : world :=
  {| reachable := true; socket_script := []; sendto_script := [];
     recv_script := script; sendto_calls := []; socket_open := true;
     modbus_response := None |}.

(** A valid response for register 73 alone, holding 0xff38, and a session
    in which the device sends it after the authentication reply. *)
Definition sample_payload : bytes := [x01; x03; x02; xff; x38].

Definition world_answering : world :=
  world_receiving
    [RecvData (blit "+ok");
     RecvData (at_reply (with_crc sample_payload) [x0d; x0a; x0d; x0a])].

(** The same session with a response cut after four bytes. *)
Definition world_truncated : world :=
  world_receiving
    [RecvData (blit "+ok");
     RecvData (at_reply (take 4 (with_crc sample_payload)) [x0d; x0a; x0d; x0a])].

(** ** Telemetry fields and the script of [deye_modbus.py] *)

Section DeyeFields.

(** Python floats stay abstract, as for the OBIS mapping: the literal of a
    decimal constant, [int * float], [float(n)] of an [int] and the test
    [x > 0]. *)
Variable pyfloat : Type.
Variable float_literal : string → pyfloat.
Variable int_times_float : Z → pyfloat → result pyfloat.
Variable float_of_int : Z → result pyfloat.
Variable float_gt_zero : pyfloat → bool.

(** [reader(response, address) * literal] *)
Definition scaled_field (value : result Z) (literal : string) : result (number pyfloat) :=
  n ← value;
  x ← int_times_float n (float_literal literal);
  Ok (NFloat x).

Definition get_fields_from_response (response : gmap Z bytes)
    : result (gmap pystr (number pyfloat)) :=
  let fields : gmap pystr (number pyfloat) := ∅ in
  v ← scaled_field (read_unit16 response 60) "0.1";
  let fields := <[lit "day_energy" := v]> fields in
  n ← read_unit16 response 60;
  let fields := <[lit "uptime" := NInt n]> fields in
  v ← scaled_field (read_unit32 response 63) "0.1";
  let fields := <[lit "total_energy" := v]> fields in
  v ← scaled_field (read_unit16 response 65) "0.1";
  let fields := <[lit "pv1_day_energy" := v]> fields in
  v ← scaled_field (read_unit16 response 66) "0.1";
  let fields := <[lit "pv2_day_energy" := v]> fields in
  v ← scaled_field (read_unit32 response 69) "0.1";
  let fields := <[lit "pv1_total_energy" := v]> fields in
  v ← scaled_field (read_unit32 response 71) "0.1";
  let fields := <[lit "pv2_total_energy" := v]> fields in
  v ← scaled_field (read_int16 response 73) "0.1";
  let fields := <[lit "l1_voltage" := v]> fields in
  v ← scaled_field (read_int16 response 76) "0.1";
  let fields := <[lit "l1_current" := v]> fields in
  v ← scaled_field (read_int16 response 79) "0.01";
  let fields := <[lit "freq" := v]> fields in
  v ← scaled_field (read_int16 response 80) "0.01";
  let fields := <[lit "operating_power" := v]> fields in
  v ← scaled_field (read_int32 response 86) "0.1";
  let fields := <[lit "active_power" := v]> fields in
  v ← scaled_field (read_int16 response 90) "0.01";
  let fields := <[lit "radiator_temp" := v]> fields in
  v ← scaled_field (read_int16 response 109) "0.1";
  let fields := <[lit "pv1_voltage" := v]> fields in
  v ← scaled_field (read_int16 response 110) "0.1";
  let fields := <[lit "pv1_current" := v]> fields in
  v ← scaled_field (read_int16 response 111) "0.1";
  let fields := <[lit "pv2_voltage" := v]> fields in
  v ← scaled_field (read_int16 response 112) "0.1";
  let fields := <[lit "pv2_current" := v]> fields in
  Ok fields.

(** How the script ends. [exit(-1)] raises [SystemExit], which the
    [except Exception] clause of the script does not catch. *)
Inductive script_end : Type :=
  | StoreCalled (fields : gmap pystr (number pyfloat))  (* store_in_influxdb(fields, ...) *)
  | Exited (status : Z)                                 (* exit(status) *)
  | ExceptionLogged (e : exn).                          (* the script ends normally *)

(** [float(v)] *)
Definition py_float (v : number pyfloat) : result pyfloat :=
  match v with
  | NFloat x => Ok x
  | NInt n => float_of_int n
  end.

(** [float(fields['pv2_total_energy']) > 0] *)
Definition sanity_check (fields : gmap pystr (number pyfloat)) : result bool :=
  match fields !! lit "pv2_total_energy" with
  | None => Raise KeyError
  | Some v => x ← py_float v; Ok (float_gt_zero x)
  end.

(** The script, from the read of the registers 60 to 112 to the call of
    [store_in_influxdb]. *)
Definition deye_main (w : world) : script_end * world :=
  match read_holding_registers 60 112 w with
  | (Raise e, w') => (ExceptionLogged e, w')
  | (Ok None, w') => (Exited (-1), w')
  | (Ok (Some response), w') =>
      if decide (response = ∅) then (Exited (-1), w')
      else
        match get_fields_from_response response with
        | Raise e => (ExceptionLogged e, w')
        | Ok fields =>
            match sanity_check fields with
            | Raise e => (ExceptionLogged e, w')
            | Ok true => (StoreCalled fields, w')
            | Ok false => (Exited (-1), w')
            end
        end
  end.

End DeyeFields.

Arguments StoreCalled {pyfloat} fields.
Arguments Exited {pyfloat} status.
Arguments ExceptionLogged {pyfloat} e.

(** The keys of the dictionary built by [get_fields_from_response]. *)
Definition field_names : list pystr :=
  [lit "day_energy"; lit "uptime"; lit "total_energy"; lit "pv1_day_energy";
   lit "pv2_day_energy"; lit "pv1_total_energy"; lit "pv2_total_energy";
   lit "l1_voltage"; lit "l1_current"; lit "freq"; lit "operating_power";
   lit "active_power"; lit "radiator_temp"; lit "pv1_voltage"; lit "pv1_current";
   lit "pv2_voltage"; lit "pv2_current"].

(** The registers read by [get_fields_from_response]. *)
Definition field_addresses : list Z :=
  [60; 63; 65; 66; 69; 71; 73; 76; 79; 80; 86; 90; 109; 110; 111; 112].

(** A valid response payload for the registers 60 to 112, every register
    holding 0x0102. *)
Definition sample_full_payload : bytes :=
  [x01; x03; x6a] ++ concat (replicate 53 [x01; x02]).

(** A stand-in for Python floats that keeps a product as the pair of its
    integer factor and of the literal it was multiplied with. *)
Definition symbolic_float : Type := Z * string.
Definition symbolic_literal (s : string) : symbolic_float := (1, s).
Definition symbolic_times (n : Z) (f : symbolic_float) : result symbolic_float :=
  Ok (n * f.1, f.2).
Definition symbolic_of_int (n : Z) : result symbolic_float := Ok (n, "1"%string).
Definition symbolic_gt_zero (x : symbolic_float) : bool := 0 <? x.1.

(** * Properties *)

Lemma in_zrange (count : nat) (start x : Z) :
  start <= x < start + Z.of_nat count → In x (zrange count start).
Proof.
  revert start. induction count as [|count IH]; intros start Hx; simpl; [lia|].
  destruct (Z.eq_dec start x) as [->|Hne]; [left; reflexivity|].
  right. apply IH. lia.
Qed.

Lemma forallb_zrange (P : Z → bool) (count : nat) (start x : Z) :
  forallb P (zrange count start) = true →
  start <= x < start + Z.of_nat count → P x = true.
Proof.
  intros Hall Hx. rewrite forallb_forall in Hall. apply Hall, in_zrange, Hx.
Qed.

Lemma bind_Ok {A B} (a : A) (f : A → result B) : (Ok a ≫= f) = f a.
Proof. reflexivity. Qed.

(** ** Checks of the builtins on known values *)

Example crc16_check_value : libscrc_modbus (blit "123456789") = 0x4B37.
Proof. vm_compute. reflexivity. Qed.

Example format_04x_examples :
  format_04x 60 = lit "003c" ∧ format_04x 65536 = lit "10000" ∧
  format_04x 0 = lit "0000" ∧ format_04x (-1) = lit "-001".
Proof. repeat split; vm_compute; reflexivity. Qed.

Example sample_request_is_built : request_with_crc 60 61 = Ok sample_request.
Proof. vm_compute. reflexivity. Qed.

Example invdata_command_example :
  invdata_command sample_request
  = Ok (blit "AT+INVDATA=8,0103003c00020407" ++ [x0a]).
Proof. vm_compute. reflexivity. Qed.

Example py_int_examples :
  py_int 10 (lit " 01 ") = Ok 1 ∧ py_int 16 (lit "0x_1f") = Ok 31 ∧
  py_int 16 (lit "-0X1f") = Ok (-31) ∧ py_int 10 (lit "1__0") = Raise int_error ∧
  py_int 16 (lit "0x") = Raise int_error ∧ py_int 10 (lit "") = Raise int_error.
Proof. repeat split; vm_compute; reflexivity. Qed.

Example decode_utf8_examples :
  decode_utf8 [xc3; xa4; x41; xe2; x82; xac] = Ok [228; 65; 8364]%N ∧
  decode_utf8 [xc0; x80] = Raise utf8_error ∧
  decode_utf8 [xed; xa0; x80] = Raise utf8_error.
Proof. repeat split; vm_compute; reflexivity. Qed.

(** A receive that fails with [OSError] ends the session with no result. *)
Example send_request_receive_failure :
  (send_request sample_request world_receive_fails).1 = Ok None.
Proof. vm_compute. reflexivity. Qed.

(** A proper substring of the identity tag passes the [in] test; it is not
    a 6-byte identifier. *)
Example identity_tag_substring :
  str_contains (lit "0100600100ff") (lit "0100") = true.
Proof. vm_compute. reflexivity. Qed.

(** ** Number formatting never runs out of fuel *)

Lemma int_digits_enough_fuel (base : Z) (fuel extra : nat) (n : Z) (acc : pystr) :
  2 <= base → 0 <= n < 2 ^ Z.of_nat (S fuel) →
  int_digits base (S (fuel + extra)) n acc = int_digits base (S fuel) n acc.
Proof.
  intros Hbase. revert n acc. induction fuel as [|fuel IH]; intros n acc Hn.
  - cbn [int_digits Nat.add].
    assert (n / base = 0) as -> by (apply Z.div_small; change (2 ^ Z.of_nat 1) with 2 in Hn; lia).
    reflexivity.
  - change (S (S fuel + extra)) with (S (S (fuel + extra))).
    cbn [int_digits].
    destruct (Z.eqb_spec (n / base) 0); [reflexivity|].
    apply IH. split; [apply Z.div_pos; lia|].
    apply Z.div_lt_upper_bound; [lia|].
    rewrite Nat2Z.inj_succ, Z.pow_succ_r in Hn by lia.
    assert (0 < 2 ^ Z.of_nat (S fuel)) by (apply Z.pow_pos_nonneg; lia).
    nia.
Qed.

Lemma py_hex_enough_fuel (n : Z) (extra : nat) :
  0 <= n → int_digits 16 (S (Z.to_nat (Z.log2 n) + extra)) n [] = py_hex n.
Proof.
  intros Hn. unfold py_hex. apply int_digits_enough_fuel; [lia|].
  rewrite Nat2Z.inj_succ, Z2Nat.id by apply Z.log2_nonneg.
  destruct (Z.eq_dec n 0) as [->|Hne]; [simpl; lia|].
  pose proof (Z.log2_spec n ltac:(lia)). lia.
Qed.

(** ** Bytes *)

Lemma byte_to_Z_range (b : byte) : 0 <= byte_to_Z b < 256.
Proof.
  unfold byte_to_Z. pose proof (Byte.to_N_bounded b). lia.
Qed.

Lemma byte_of_to_Z (b : byte) : byte_of_Z (byte_to_Z b) = b.
Proof.
  unfold byte_of_Z. pose proof (byte_to_Z_range b) as Hr.
  rewrite Z.mod_small by lia. unfold byte_to_Z.
  rewrite N2Z.id, Byte.of_to_N. reflexivity.
Qed.

Lemma byte_to_of_Z (z : Z) : byte_to_Z (byte_of_Z z) = z mod 256.
Proof.
  unfold byte_of_Z, byte_to_Z.
  pose proof (Z.mod_pos_bound z 256 ltac:(lia)) as Hr.
  destruct (Byte.of_N (Z.to_N (z mod 256))) as [b|] eqn:Hb.
  - apply Byte.to_of_N in Hb. simpl. rewrite Hb. lia.
  - apply Byte.of_N_None_iff in Hb. lia.
Qed.

Lemma byte_to_Z_inj (a b : byte) : byte_to_Z a = byte_to_Z b → a = b.
Proof.
  intros H. rewrite <- (byte_of_to_Z a), <- (byte_of_to_Z b). congruence.
Qed.

Lemma from_bytes_little_le16 (n : Z) :
  0 <= n < 65536 → from_bytes_little (le16 n) = n.
Proof.
  intros Hn. unfold from_bytes_little, le16. simpl.
  rewrite !byte_to_of_Z.
  rewrite (Z.mod_small (n / 256)) by (split; [apply Z.div_pos; lia | apply Z.div_lt_upper_bound; lia]).
  pose proof (Z.div_mod n 256 ltac:(lia)). lia.
Qed.

Lemma from_bytes_big_two (hi lo : byte) :
  from_bytes_big [hi; lo] = byte_to_Z hi * 256 + byte_to_Z lo.
Proof. unfold from_bytes_big. simpl. lia. Qed.

(** ** Slices *)

Lemma py_slice_range {A} (l : list A) (i j : Z) :
  0 <= i <= j → j <= Z.of_nat (length l) →
  py_slice l (Some i) (Some j) = take (Z.to_nat (j - i)) (drop (Z.to_nat i) l).
Proof.
  intros Hij Hj. unfold py_slice, clamp_index. simpl.
  destruct (Z.ltb_spec i 0); [lia|]. destruct (Z.ltb_spec j 0); [lia|].
  rewrite !Z.min_l by lia. reflexivity.
Qed.

Lemma py_slice_prefix {A} (l1 l2 : list A) :
  py_slice (l1 ++ l2) (Some 0) (Some (Z.of_nat (length l1))) = l1.
Proof.
  rewrite py_slice_range by (rewrite ?length_app; lia).
  rewrite Z.sub_0_r, Nat2Z.id. change (Z.to_nat 0) with 0%nat.
  rewrite drop_0, take_app_length. reflexivity.
Qed.

Lemma py_slice_suffix {A} (l1 l2 : list A) :
  py_slice (l1 ++ l2) (Some (Z.of_nat (length l1)))
           (Some (Z.of_nat (length l1) + Z.of_nat (length l2))) = l2.
Proof.
  rewrite py_slice_range by (rewrite ?length_app; lia).
  rewrite Nat2Z.id, drop_app_length.
  replace (Z.to_nat _) with (length l2) by lia.
  apply firstn_all.
Qed.

(** ** CRC-16/MODBUS: range and sensitivity to a changed byte *)

(** Checked on every 16-bit value: one shift step stays within 16 bits and
    is undone by [crc16_unshift]. *)
Lemma crc16_shift_table :
  forallb (fun x => (crc16_unshift (crc16_shift x) =? x)
                    && (0 <=? crc16_shift x) && (crc16_shift x <? 65536))
          (zrange (Z.to_nat 65536) 0) = true.
Proof. vm_compute. reflexivity. Qed.

Lemma crc16_shift_props (x : Z) :
  word16 x → crc16_unshift (crc16_shift x) = x ∧ word16 (crc16_shift x).
Proof.
  intros Hx.
  pose proof (forallb_zrange _ _ _ x crc16_shift_table) as Ht. cbv beta in Ht.
  rewrite Z2Nat.id in Ht by lia.
  specialize (Ht ltac:(unfold word16 in Hx; lia)).
  apply andb_prop in Ht as [Ht H3]. apply andb_prop in Ht as [H1 H2].
  unfold word16. lia.
Qed.

Lemma crc16_shift_iter_word16 (n : nat) (x : Z) :
  word16 x → word16 (Nat.iter n crc16_shift x).
Proof.
  intros Hx. induction n as [|n IH]; simpl; [exact Hx|].
  apply crc16_shift_props, IH.
Qed.

Lemma crc16_shift_iter_inj (n : nat) (x y : Z) :
  word16 x → word16 y →
  Nat.iter n crc16_shift x = Nat.iter n crc16_shift y → x = y.
Proof.
  intros Hx Hy. induction n as [|n IH]; simpl; [auto|].
  intros Heq. apply IH.
  pose proof (crc16_shift_props _ (crc16_shift_iter_word16 n x Hx)) as [Hux _].
  pose proof (crc16_shift_props _ (crc16_shift_iter_word16 n y Hy)) as [Huy _].
  congruence.
Qed.

Lemma lxor_word16 (a b : Z) : word16 a → word16 b → word16 (Z.lxor a b).
Proof.
  unfold word16. intros Ha Hb.
  assert (0 <= Z.lxor a b) as Hnn by (apply Z.lxor_nonneg; lia).
  split; [exact Hnn|].
  destruct (Z.eq_dec (Z.lxor a b) 0) as [->|Hne]; [lia|].
  change 65536 with (2 ^ 16). apply Z.log2_lt_pow2; [lia|].
  pose proof (Z.log2_lxor a b ltac:(lia) ltac:(lia)) as Hl.
  assert (Z.log2 a < 16) as Hla.
  { destruct (Z.eq_dec a 0) as [->|]; [simpl; lia|]. apply Z.log2_lt_pow2; lia. }
  assert (Z.log2 b < 16) as Hlb.
  { destruct (Z.eq_dec b 0) as [->|]; [simpl; lia|]. apply Z.log2_lt_pow2; lia. }
  lia.
Qed.

Lemma byte_word16 (b : byte) : word16 (byte_to_Z b).
Proof. pose proof (byte_to_Z_range b). unfold word16. lia. Qed.

Lemma lxor_cancel_l (s a b : Z) : Z.lxor s a = Z.lxor s b → a = b.
Proof.
  intros H. apply (f_equal (Z.lxor s)) in H.
  rewrite <- !Z.lxor_assoc, Z.lxor_nilpotent, !Z.lxor_0_l in H. exact H.
Qed.

Lemma lxor_cancel_r (s t b : Z) : Z.lxor s b = Z.lxor t b → s = t.
Proof.
  rewrite (Z.lxor_comm s b), (Z.lxor_comm t b). apply lxor_cancel_l.
Qed.

Lemma crc16_update_word16 (crc : Z) (b : byte) :
  word16 crc → word16 (crc16_update crc b).
Proof.
  intros Hc. apply crc16_shift_iter_word16, lxor_word16; [exact Hc | apply byte_word16].
Qed.

Lemma crc16_update_byte_neq (crc : Z) (b b' : byte) :
  word16 crc → b ≠ b' → crc16_update crc b ≠ crc16_update crc b'.
Proof.
  intros Hc Hne Heq. apply Hne, byte_to_Z_inj, (lxor_cancel_l crc).
  eapply crc16_shift_iter_inj; [| | exact Heq];
    apply lxor_word16; auto using byte_word16.
Qed.

Lemma crc16_update_state_neq (crc crc' : Z) (b : byte) :
  word16 crc → word16 crc' → crc ≠ crc' → crc16_update crc b ≠ crc16_update crc' b.
Proof.
  intros Hc Hc' Hne Heq. apply Hne, (lxor_cancel_r _ _ (byte_to_Z b)).
  eapply crc16_shift_iter_inj; [| | exact Heq];
    apply lxor_word16; auto using byte_word16.
Qed.

Lemma crc16_fold_word16 (data : bytes) (crc : Z) :
  word16 crc → word16 (fold_left crc16_update data crc).
Proof.
  revert crc. induction data as [|b data IH]; intros crc Hc; simpl; [exact Hc|].
  apply IH, crc16_update_word16, Hc.
Qed.

Lemma crc16_fold_neq (data : bytes) (crc crc' : Z) :
  word16 crc → word16 crc' → crc ≠ crc' →
  fold_left crc16_update data crc ≠ fold_left crc16_update data crc'.
Proof.
  revert crc crc'. induction data as [|b data IH]; intros crc crc' Hc Hc' Hne; simpl;
    [exact Hne|].
  apply IH; auto using crc16_update_word16, crc16_update_state_neq.
Qed.

Lemma libscrc_modbus_word16 (data : bytes) : word16 (libscrc_modbus data).
Proof. apply crc16_fold_word16. unfold word16. lia. Qed.

(** Replacing one byte by a different one changes the checksum. *)
Lemma libscrc_modbus_changed_byte (pre post : bytes) (b b' : byte) :
  b ≠ b' → libscrc_modbus (pre ++ b :: post) ≠ libscrc_modbus (pre ++ b' :: post).
Proof.
  intros Hne. unfold libscrc_modbus. rewrite !fold_left_app. simpl.
  assert (word16 (fold_left crc16_update pre 65535)) as Hpre
    by (apply crc16_fold_word16; unfold word16; lia).
  apply crc16_fold_neq; auto using crc16_update_word16, crc16_update_byte_neq.
Qed.

(** ** Register decoder *)

Lemma land_ffff (x : Z) : Z.land x 0xffff = x mod 65536.
Proof. change 0xffff with (Z.ones 16). rewrite Z.land_ones by lia. reflexivity. Qed.

Lemma land_ffffffff (x : Z) : Z.land x 0xffffffff = x mod 4294967296.
Proof. change 0xffffffff with (Z.ones 32). rewrite Z.land_ones by lia. reflexivity. Qed.

Lemma getitem_insert (response : gmap Z bytes) (address : Z) (v : bytes) :
  getitem (<[address := v]> response) address = Ok v.
Proof. unfold getitem. rewrite lookup_insert_eq. reflexivity. Qed.

(** On a register of two bytes the 32-bit reader returns what the 16-bit
    reader returns: the mask has nothing to remove and the next register is
    never looked at. *)
Lemma read_unit32_two_bytes (response : gmap Z bytes) (address : Z) (hi lo : byte) :
  response !! address = Some [hi; lo] →
  read_unit32 response address = read_unit16 response address.
Proof.
  intros H. unfold read_unit32, read_unit16, getitem. rewrite H. simpl.
  rewrite land_ffff, land_ffffffff, from_bytes_big_two.
  pose proof (byte_to_Z_range hi). pose proof (byte_to_Z_range lo).
  rewrite !Z.mod_small by lia. reflexivity.
Qed.

(** C1: with registers 63 and 64 holding 0x0001 and 0x0002, the 32-bit
    decoder returns 1, the value of register 63 alone, and not
    (1 * 65536 + 2) mod 2^32 = 65538: the second register is not read. *)
Theorem read_unit32_reads_one_register :
  read_unit16 two_registers 63 = Ok 1 ∧
  read_unit16 two_registers 64 = Ok 2 ∧
  read_unit32 two_registers 63 = Ok 1 ∧
  read_unit32 two_registers 63 ≠ Ok ((1 * 65536 + 2) mod 2 ^ 32).
Proof.
  repeat split; try reflexivity.
  vm_compute. discriminate.
Qed.

(** C8: on a register of two bytes [hi lo], [read_int16] returns the
    two's-complement reading of the 16-bit value [hi * 256 + lo]: that value
    minus 65536 exactly when it exceeds 32767, so 0xFFFF gives -1, 0x8000
    gives -32768 and 0x7FFF gives 32767; [read_int32] returns the value of
    [read_unit32] minus 4294967296 exactly when that value exceeds
    2147483647, whatever the length of the entry. *)
Theorem read_int_twos_complement (response : gmap Z bytes) (address : Z) (hi lo : byte) :
  response !! address = Some [hi; lo] →
  let u16 := byte_to_Z hi * 256 + byte_to_Z lo in
  read_unit16 response address = Ok u16 ∧
  read_int16 response address = Ok (if u16 >? 32767 then u16 - 65536 else u16) ∧
  (∃ i16, read_int16 response address = Ok i16 ∧
          -32768 <= i16 <= 32767 ∧ i16 mod 65536 = u16) ∧
  read_int16 (<[address := [xff; xff]]> response) address = Ok (-1) ∧
  read_int16 (<[address := [x80; x00]]> response) address = Ok (-32768) ∧
  read_int16 (<[address := [x7f; xff]]> response) address = Ok 32767 ∧
  (∃ u32, read_unit32 response address = Ok u32 ∧
          read_int32 response address
          = Ok (if u32 >? 2147483647 then u32 - 4294967296 else u32)) ∧
  (∀ v : bytes,
     let u32 := from_bytes_big v mod 4294967296 in
     read_unit32 (<[address := v]> response) address = Ok u32 ∧
     read_int32 (<[address := v]> response) address
     = Ok (if u32 >? 2147483647 then u32 - 4294967296 else u32)).
Proof.
  intros H u16.
  pose proof (byte_to_Z_range hi) as Hhi. pose proof (byte_to_Z_range lo) as Hlo.
  assert (Z.land (from_bytes_big [hi; lo]) 0xffff = u16) as Hu.
  { rewrite land_ffff, from_bytes_big_two. apply Z.mod_small. lia. }
  assert (read_int16 response address
          = Ok (if u16 >? 32767 then u16 - 65536 else u16)) as Hi16.
  { unfold read_int16, getitem. rewrite H. simpl. rewrite Hu. reflexivity. }
  split; [unfold read_unit16, getitem; rewrite H; simpl; rewrite Hu; reflexivity|].
  split; [exact Hi16|].
  split.
  { eexists. split; [exact Hi16|].
    destruct (Z.gtb_spec u16 32767).
    - split; [subst u16; lia|].
      replace (u16 - 65536) with (u16 + (-1) * 65536) by lia.
      rewrite Z.mod_add by lia. apply Z.mod_small. subst u16. lia.
    - split; [subst u16; lia|]. apply Z.mod_small. subst u16. lia. }
  split; [unfold read_int16; rewrite getitem_insert; reflexivity|].
  split; [unfold read_int16; rewrite getitem_insert; reflexivity|].
  split; [unfold read_int16; rewrite getitem_insert; reflexivity|].
  split.
  { unfold read_int32, read_unit32, getitem. rewrite H. simpl. eexists. split; reflexivity. }
  intros v u32. unfold read_int32, read_unit32. rewrite getitem_insert. simpl.
  rewrite land_ffffffff. split; reflexivity.
Qed.

Lemma read_int_twos_complement_witness :
  read_int16 (<[73 := [xff; x38]]> ∅) 73 = Ok (-200).
Proof.
  assert ((<[73 := [xff; x38]]> ∅ : gmap Z bytes) !! 73 = Some [xff; x38]) as H
    by (vm_compute; reflexivity).
  exact (proj1 (proj2 (read_int_twos_complement _ _ _ _ H))).
Defined.

(** ** Frame codec: parsing *)

(** The register loop stores, for every address it visits, the two-byte
    window of the frame at offset [3 + 2 * (address - first_reg)]. *)
Lemma parse_registers_lookup (fuel : nat) (frame : bytes) (first_reg reg_count a : Z)
    (registers : gmap Z bytes) (k : Z) :
  fuel = Z.to_nat (reg_count - a) →
  parse_registers fuel frame first_reg reg_count a registers !! k
  = if decide (a + first_reg <= k < reg_count + first_reg)
    then Some (py_slice frame (Some (3 + (k - first_reg) * 2))
                              (Some (3 + (k - first_reg) * 2 + 2)))
    else registers !! k.
Proof.
  revert a registers. induction fuel as [|fuel IH]; intros a registers Hfuel; simpl.
  - case_decide; [lia | reflexivity].
  - destruct (Z.ltb_spec a reg_count); [|lia].
    rewrite IH by lia.
    destruct (decide (k = a + first_reg)) as [->|Hne].
    + rewrite lookup_insert_eq.
      replace (a + first_reg - first_reg) with a by lia.
      repeat case_decide; try lia; reflexivity.
    + rewrite lookup_insert_ne by congruence.
      repeat case_decide; try lia; reflexivity.
Qed.

Lemma parse_registers_size (fuel : nat) (frame : bytes) (first_reg reg_count a : Z)
    (registers : gmap Z bytes) :
  fuel = Z.to_nat (reg_count - a) →
  (∀ k, a + first_reg <= k → registers !! k = None) →
  size (parse_registers fuel frame first_reg reg_count a registers)
  = (size registers + fuel)%nat.
Proof.
  revert a registers. induction fuel as [|fuel IH]; intros a registers Hfuel Hfresh; simpl.
  - lia.
  - destruct (Z.ltb_spec a reg_count); [|lia].
    rewrite IH.
    + rewrite map_size_insert_None by (apply Hfresh; lia). lia.
    + lia.
    + intros k Hk. rewrite lookup_insert_ne by lia. apply Hfresh. lia.
Qed.

(** A frame made of a payload of the expected length and two more bytes:
    the length check passes and the outcome depends on the comparison of
    those two bytes, read little-endian, with the CRC of the payload. *)
Lemma parse_payload_and_crc (data crc : bytes) (first_reg last_reg : Z) :
  Z.of_nat (length data) = 2 + 1 + (last_reg - first_reg + 1) * 2 →
  length crc = 2%nat →
  parse_modbus_read_holding_registers_response (data ++ crc) first_reg last_reg
  = if negb (from_bytes_little crc =? libscrc_modbus data)
    then Raise frame_crc_invalid
    else Ok (parse_registers (Z.to_nat (last_reg - first_reg + 1)) (data ++ crc)
               first_reg (last_reg - first_reg + 1) 0 ∅).
Proof.
  intros Hlen Hcrc. unfold parse_modbus_read_holding_registers_response.
  rewrite length_app, Hcrc.
  destruct (Z.ltb_spec (Z.of_nat (length data + 2))
              (2 + 1 + (last_reg - first_reg + 1) * 2 + 2)); [lia|].
  rewrite <- Hlen.
  replace (Z.of_nat (length data) + 2)
    with (Z.of_nat (length data) + Z.of_nat (length crc)) by lia.
  rewrite py_slice_suffix, py_slice_prefix. reflexivity.
Qed.

Lemma length_le16 (n : Z) : length (le16 n) = 2%nat.
Proof. reflexivity. Qed.

(** C4: a response made of 2 header bytes, a byte-count byte and
    [last_reg - first_reg + 1] two-byte register values, followed by the
    CRC-16/MODBUS of those bytes low byte first, parses to a register map
    with exactly [last_reg - first_reg + 1] entries, whose keys are exactly
    [first_reg .. last_reg], the entry of address [a] being the two bytes of
    the frame at offset [3 + 2 * (a - first_reg)]. *)
Theorem parse_valid_response (first_reg last_reg : Z) (data : bytes) :
  first_reg <= last_reg →
  Z.of_nat (length data) = 3 + 2 * (last_reg - first_reg + 1) →
  ∃ registers : gmap Z bytes,
    parse_modbus_read_holding_registers_response (with_crc data) first_reg last_reg
    = Ok registers ∧
    Z.of_nat (size registers) = last_reg - first_reg + 1 ∧
    (∀ a, is_Some (registers !! a) ↔ first_reg <= a <= last_reg) ∧
    (∀ a, first_reg <= a <= last_reg →
       ∃ b0 b1 : byte,
         with_crc data !! Z.to_nat (3 + 2 * (a - first_reg)) = Some b0 ∧
         with_crc data !! Z.to_nat (3 + 2 * (a - first_reg) + 1) = Some b1 ∧
         registers !! a = Some [b0; b1]).
Proof.
  intros Hle Hlen.
  set (reg_count := last_reg - first_reg + 1) in *.
  eexists. split.
  { unfold with_crc. rewrite parse_payload_and_crc by (try apply length_le16; lia).
    rewrite from_bytes_little_le16 by apply libscrc_modbus_word16.
    rewrite Z.eqb_refl. simpl. reflexivity. }
  fold reg_count. fold (with_crc data).
  split.
  { rewrite parse_registers_size; [rewrite map_size_empty; lia | f_equal; lia |].
    intros k _. apply lookup_empty. }
  split.
  { intros a. rewrite parse_registers_lookup by (f_equal; lia).
    case_decide as Hr.
    - split; [intros _; lia | intros _; eauto].
    - rewrite lookup_empty. split; [intros [? ?]; discriminate | lia]. }
  intros a Ha. rewrite parse_registers_lookup by (f_equal; lia).
  case_decide as Hr; [|lia].
  assert (length (with_crc data) = (length data + 2)%nat) as Hl
    by (unfold with_crc; rewrite length_app; reflexivity).
  rewrite py_slice_range by lia.
  replace (3 + (a - first_reg) * 2 + 2 - (3 + (a - first_reg) * 2)) with 2 by lia.
  set (off := Z.to_nat (3 + (a - first_reg) * 2)).
  replace (Z.to_nat (3 + 2 * (a - first_reg))) with off by lia.
  replace (Z.to_nat (3 + 2 * (a - first_reg) + 1)) with (S off) by lia.
  destruct (lookup_lt_is_Some_2 (with_crc data) off ltac:(lia)) as [b0 Hb0].
  destruct (lookup_lt_is_Some_2 (with_crc data) (S off) ltac:(lia)) as [b1 Hb1].
  exists b0, b1. split; [exact Hb0|]. split; [exact Hb1|].
  f_equal. change (Z.to_nat 2) with 2%nat.
  rewrite (drop_S _ _ _ Hb0), (take_S_r _ _ b1).
  - reflexivity.
  - change ((b0 :: drop (S off) (with_crc data)) !! 1%nat)
      with (drop (S off) (with_crc data) !! 0%nat).
    rewrite lookup_drop, Nat.add_0_r. exact Hb1.
Qed.

Lemma parse_valid_response_witness :
  ∃ registers : gmap Z bytes,
    parse_modbus_read_holding_registers_response
      (with_crc [x01; x03; x04; x00; x01; x00; x02]) 60 61 = Ok registers ∧
    Z.of_nat (size registers) = 61 - 60 + 1 ∧
    (∀ a, is_Some (registers !! a) ↔ 60 <= a <= 61) ∧
    (∀ a, 60 <= a <= 61 →
       ∃ b0 b1 : byte,
         with_crc [x01; x03; x04; x00; x01; x00; x02] !! Z.to_nat (3 + 2 * (a - 60)) = Some b0 ∧
         with_crc [x01; x03; x04; x00; x01; x00; x02] !! Z.to_nat (3 + 2 * (a - 60) + 1) = Some b1 ∧
         registers !! a = Some [b0; b1]).
Proof.
  apply (parse_valid_response 60 61 [x01; x03; x04; x00; x01; x00; x02]);
    [lia | reflexivity].
Defined.

(** C5: for a valid response (payload of the expected length followed by
    its CRC), every frame that is shorter, in particular every proper
    prefix, is rejected with the "too short" error, which is not the CRC
    error; and replacing any one payload byte by a different byte, the CRC
    bytes being kept, is rejected with the CRC error. *)
Theorem parse_truncated_or_corrupted (first_reg last_reg : Z) (data : bytes) :
  first_reg <= last_reg →
  Z.of_nat (length data) = 3 + 2 * (last_reg - first_reg + 1) →
  (∀ frame : bytes,
     (length frame < length (with_crc data))%nat →
     parse_modbus_read_holding_registers_response frame first_reg last_reg
     = Raise frame_too_short) ∧
  (∀ k : nat,
     (k < length (with_crc data))%nat →
     parse_modbus_read_holding_registers_response (take k (with_crc data)) first_reg last_reg
     = Raise frame_too_short) ∧
  frame_too_short ≠ frame_crc_invalid ∧
  (∀ (i : nat) (b b' : byte),
     data !! i = Some b → b' ≠ b →
     parse_modbus_read_holding_registers_response (<[i := b']> (with_crc data))
       first_reg last_reg
     = Raise frame_crc_invalid).
Proof.
  intros Hle Hlen.
  assert (length (with_crc data) = (length data + 2)%nat) as Hl
    by (unfold with_crc; rewrite length_app; reflexivity).
  assert (∀ frame : bytes,
            (length frame < length (with_crc data))%nat →
            parse_modbus_read_holding_registers_response frame first_reg last_reg
            = Raise frame_too_short) as Hshort.
  { intros frame Hf. unfold parse_modbus_read_holding_registers_response.
    destruct (Z.ltb_spec (Z.of_nat (length frame))
                (2 + 1 + (last_reg - first_reg + 1) * 2 + 2)); [reflexivity | lia]. }
  split; [exact Hshort|].
  split; [intros k Hk; apply Hshort; rewrite length_take; lia|].
  split; [discriminate|].
  intros i b b' Hb Hne.
  pose proof (lookup_lt_Some _ _ _ Hb) as Hi.
  unfold with_crc. rewrite insert_app_l by exact Hi.
  rewrite parse_payload_and_crc
    by (rewrite ?length_insert; try apply length_le16; lia).
  rewrite from_bytes_little_le16 by apply libscrc_modbus_word16.
  destruct (Z.eqb_spec (libscrc_modbus data) (libscrc_modbus (<[i:=b']> data)))
    as [Heq|_]; [|reflexivity].
  exfalso. revert Heq.
  rewrite insert_take_drop by exact Hi.
  rewrite <- (take_drop_middle data i b Hb) at 1.
  apply libscrc_modbus_changed_byte. congruence.
Qed.

Lemma parse_truncated_or_corrupted_witness :
  parse_modbus_read_holding_registers_response
    (take 8%nat (with_crc [x01; x03; x04; x00; x01; x00; x02])) 60 61
  = Raise frame_too_short ∧
  parse_modbus_read_holding_registers_response
    (<[4%nat := x09]> (with_crc [x01; x03; x04; x00; x01; x00; x02])) 60 61
  = Raise frame_crc_invalid.
Proof.
  pose proof (parse_truncated_or_corrupted 60 61 [x01; x03; x04; x00; x01; x00; x02]
                ltac:(lia) eq_refl) as (_ & Htake & _ & Hbyte).
  split.
  - apply Htake. simpl. lia.
  - apply (Hbyte 4%nat x01 x09); [reflexivity | discriminate].
Defined.

(** ** Frame codec: the request *)

(** Checked on every 16-bit value: four hexadecimal digits are printed and
    read back as the two bytes of the value, high byte first. *)
Lemma fromhex_format_04x_table :
  forallb (fun n => match fromhex (format_04x n) with
                    | Ok [hi; lo] => Byte.eqb hi (byte_of_Z (n / 256))
                                     && Byte.eqb lo (byte_of_Z n)
                    | _ => false
                    end)
          (zrange (Z.to_nat 65536) 0) = true.
Proof. vm_compute. reflexivity. Qed.

Lemma fromhex_format_04x (n : Z) :
  word16 n → fromhex (format_04x n) = Ok (be16 n).
Proof.
  intros Hn.
  pose proof (forallb_zrange _ _ _ n fromhex_format_04x_table) as Ht. cbv beta in Ht.
  rewrite Z2Nat.id in Ht by lia.
  specialize (Ht ltac:(unfold word16 in Hn; lia)).
  destruct (fromhex (format_04x n)) as [[|hi [|lo [|? ?]]]|]; try discriminate.
  apply andb_prop in Ht as [H1 H2].
  apply Byte.byte_dec_bl in H1, H2. subst. reflexivity.
Qed.

(** Text that decodes completely can be followed by more text. *)
Lemma fromhex_app (s1 s2 : pystr) (b1 : bytes) :
  fromhex s1 = Ok b1 →
  fromhex (s1 ++ s2) = b2 ← fromhex s2; Ok (b1 ++ b2).
Proof.
  remember (length s1) as n eqn:Hn.
  revert s1 b1 Hn. induction n as [n IH] using lt_wf_ind. intros s1 b1 Hn H1.
  destruct s1 as [|c rest].
  - injection H1 as <-. simpl. destruct (fromhex s2); reflexivity.
  - destruct (hex_isspace c) eqn:Hsp.
    + simpl in *. rewrite Hsp in *.
      eapply IH; [|reflexivity|exact H1]. lia.
    + destruct rest as [|d rest'].
      { simpl in H1. rewrite Hsp in H1. destruct (hex_value c); discriminate. }
      simpl in *. rewrite Hsp in *.
      destruct (hex_value c) as [top|]; [|discriminate].
      destruct (hex_value d) as [bot|]; [|discriminate].
      destruct (fromhex rest') as [bs|] eqn:Hrest; [|discriminate].
      injection H1 as <-.
      rewrite (IH (length rest') ltac:(lia) rest' bs eq_refl Hrest).
      destruct (fromhex s2); reflexivity.
Qed.

Lemma from_bytes_big_be16 (n : Z) : word16 n → from_bytes_big (be16 n) = n.
Proof.
  unfold word16. intros Hn. unfold be16. rewrite from_bytes_big_two, !byte_to_of_Z.
  rewrite (Z.mod_small (n / 256))
    by (split; [apply Z.div_pos; lia | apply Z.div_lt_upper_bound; lia]).
  pose proof (Z.div_mod n 256 ltac:(lia)). lia.
Qed.

Lemma fromhex_0103 : fromhex (lit "0103") = Ok [x01; x03].
Proof. vm_compute. reflexivity. Qed.

(** C3 (as amended): for [0 <= first_reg <= last_reg <= 0xFFFF] with a
    register count [last_reg - first_reg + 1] of at most 0xFFFF, the
    request frame is the unit address 0x01, the function code 0x03,
    [first_reg] and the register count as big-endian 16-bit fields, and the
    bytes handed to the transport are that frame followed by its
    CRC-16/MODBUS with the low byte first. *)
Theorem request_with_crc_wire (first_reg last_reg : Z) :
  0 <= first_reg <= last_reg → last_reg <= 0xFFFF →
  last_reg - first_reg + 1 <= 0xFFFF →
  let reg_count := last_reg - first_reg + 1 in
  let frame := [x01; x03] ++ be16 first_reg ++ be16 reg_count in
  build_modbus_read_holding_registers_request_frame first_reg last_reg = Ok frame ∧
  request_with_crc first_reg last_reg = Ok (frame ++ le16 (libscrc_modbus frame)) ∧
  from_bytes_big (be16 first_reg) = first_reg ∧
  from_bytes_big (be16 reg_count) = reg_count ∧
  from_bytes_little (le16 (libscrc_modbus frame)) = libscrc_modbus frame.
Proof.
  intros Hfirst Hlast Hcount reg_count frame.
  assert (word16 first_reg) as Hw1 by (unfold word16; lia).
  assert (word16 reg_count) as Hw2 by (unfold word16; subst reg_count; lia).
  assert (build_modbus_read_holding_registers_request_frame first_reg last_reg = Ok frame)
    as Hframe.
  { unfold build_modbus_read_holding_registers_request_frame. fold reg_count.
    rewrite (fromhex_app _ _ _ fromhex_0103).
    rewrite (fromhex_app _ _ _ (fromhex_format_04x _ Hw1)).
    rewrite (fromhex_format_04x _ Hw2). reflexivity. }
  split; [exact Hframe|].
  split.
  { unfold request_with_crc. rewrite Hframe, bind_Ok.
    rewrite (fromhex_format_04x _ (libscrc_modbus_word16 _)), bind_Ok. reflexivity. }
  split; [apply from_bytes_big_be16, Hw1|].
  split; [apply from_bytes_big_be16, Hw2|].
  apply from_bytes_little_le16, libscrc_modbus_word16.
Qed.

Lemma request_with_crc_wire_witness :
  request_with_crc 60 112 = Ok [x01; x03; x00; x3c; x00; x35; x45; xd1].
Proof.
  exact (proj1 (proj2 (request_with_crc_wire 60 112 ltac:(lia) ltac:(lia) ltac:(lia)))).
Defined.

(** C3, as stated, fails for [first_reg = 0] and [last_reg = 0xFFFF]: the
    register count 0x10000 is printed with five hexadecimal digits, the
    text has an odd number of digits and no request is produced. *)
Lemma request_with_crc_full_range_raises :
  0 <= 0 <= 0xFFFF ∧ 0xFFFF <= 0xFFFF ∧
  format_04x (0xFFFF - 0 + 1) = lit "10000" ∧
  build_modbus_read_holding_registers_request_frame 0 0xFFFF = Raise fromhex_error ∧
  request_with_crc 0 0xFFFF = Raise fromhex_error.
Proof.
  split; [lia|]. split; [lia|].
  repeat split; vm_compute; reflexivity.
Qed.

(** ** AT response extraction *)

Lemma py_slice_4_minus_4 {A} (l : list A) :
  py_slice l (Some 4) (Some (-4)) = take (length (drop 4 l) - 4) (drop 4 l).
Proof.
  unfold py_slice, clamp_index. simpl.
  rewrite length_drop.
  destruct (Z.ltb_spec (-4) 0); [|lia].
  destruct (le_lt_dec 8 (length l)) as [Hlen|Hlen].
  - rewrite Z.min_l, Z.max_r by lia.
    change (Z.to_nat 4) with 4%nat. f_equal. lia.
  - replace (length l - 4 - 4)%nat with 0%nat by lia.
    replace (Z.to_nat _) with 0%nat by lia. reflexivity.
Qed.

Lemma py_slice_last_4 {A} (l : list A) :
  (4 < length l)%nat → py_slice l (Some (-4)) None = drop (length l - 4) l.
Proof.
  intros Hlen. unfold py_slice, clamp_index. simpl.
  destruct (Z.ltb_spec (-4) 0); [|lia].
  destruct (Z.ltb_spec (Z.of_nat (length l)) 0); [lia|].
  rewrite Z.max_r, Z.min_l by lia.
  replace (Z.to_nat (-4 + Z.of_nat (length l))) with (length l - 4)%nat by lia.
  apply take_ge. rewrite length_drop. lia.
Qed.

Lemma py_slice_but_last_4 {A} (l : list A) :
  (4 < length l)%nat → py_slice l (Some 0) (Some (-4)) = take (length l - 4) l.
Proof.
  intros Hlen. unfold py_slice, clamp_index. simpl.
  destruct (Z.ltb_spec (-4) 0); [|lia].
  rewrite Z.max_r, Z.min_l by lia.
  change (Z.to_nat 0) with 0%nat. rewrite drop_0. f_equal. lia.
Qed.

(** Text without bytes above 0x7F decodes to itself. *)
Lemma decode_utf8_ascii (bs : bytes) :
  Forall (fun b => byte_to_Z b < 128) bs → decode_utf8 bs = Ok (ascii_text bs).
Proof.
  induction 1 as [|b bs Hb _ IH]; [reflexivity|].
  simpl. destruct (Z.ltb_spec (byte_to_Z b) 128); [|lia].
  rewrite IH. reflexivity.
Qed.

(** A byte above 0x7F either makes the decoding fail or yields a character
    above U+007F. *)
Lemma decode_utf8_non_ascii (bs : bytes) :
  Exists (fun b => 128 <= byte_to_Z b) bs →
  match decode_utf8 bs with
  | Ok s => Exists (fun c => (128 <= c)%N) s
  | Raise _ => True
  end.
Proof.
  induction bs as [|b0 r0 IH]; intros Hex; [inversion Hex|].
  simpl. destruct (Z.ltb_spec (byte_to_Z b0) 128) as [Hlt|Hge].
  - assert (Exists (fun b => 128 <= byte_to_Z b) r0) as Hr0
      by (inversion Hex; subst; [lia | assumption]).
    specialize (IH Hr0). destruct (decode_utf8 r0); simpl; [|exact I].
    apply Exists_cons_tl, IH.
  - repeat match goal with
           | |- context [if ?c then _ else _] => destruct c eqn:?
           | |- context [match ?l with [] => _ | _ :: _ => _ end] => destruct l
           | |- context [match decode_utf8 ?l with _ => _ end] => destruct (decode_utf8 l)
           | |- context [decode_utf8 ?l ≫= _] => destruct (decode_utf8 l)
           end; simpl; try exact I;
      apply Exists_cons_hd;
      repeat match goal with
             | H : _ && _ = true |- _ => apply andb_prop in H as [? ?]
             end; lia.
Qed.

(** Text with a character above U+007F is not hexadecimal text. *)
Lemma fromhex_non_ascii (s : pystr) :
  Exists (fun c => (128 <= c)%N) s → returned (fromhex s) = None.
Proof.
  remember (length s) as n eqn:Hn.
  revert s Hn. induction n as [n IH] using lt_wf_ind. intros s Hn Hex.
  destruct s as [|c rest]; [inversion Hex|].
  simpl. destruct (hex_isspace c) eqn:Hsp.
  - apply (IH (length rest)); [simpl in Hn; lia | reflexivity |].
    inversion Hex; subst; [|assumption].
    unfold hex_isspace in Hsp. lia.
  - destruct (hex_value c) as [top|] eqn:Hc; [|reflexivity].
    destruct rest as [|d rest']; [reflexivity|].
    destruct (hex_value d) as [bot|] eqn:Hd; [|reflexivity].
    assert (Exists (fun c => (128 <= c)%N) rest') as Hrest'.
    { unfold hex_value in Hc, Hd.
      inversion Hex as [? ? Hc128|? ? Hex']; subst.
      - repeat match type of Hc with
               | context [if ?b then _ else _] => destruct b eqn:?
               end; try discriminate; lia.
      - inversion Hex' as [? ? Hd128|]; subst; [|assumption].
        repeat match type of Hd with
               | context [if ?b then _ else _] => destruct b eqn:?
               end; try discriminate; lia. }
    specialize (IH (length rest') ltac:(simpl in Hn; lia) rest' eq_refl Hrest').
    destruct (fromhex rest'); [discriminate | reflexivity].
Qed.

Lemma ascii_or_not (bs : bytes) :
  Forall (fun b => byte_to_Z b < 128) bs ∨ Exists (fun b => 128 <= byte_to_Z b) bs.
Proof.
  induction bs as [|b bs [IH|IH]].
  - left. constructor.
  - destruct (Z.lt_ge_cases (byte_to_Z b) 128).
    + left. constructor; assumption.
    + right. apply Exists_cons_hd. assumption.
  - right. apply Exists_cons_tl. assumption.
Qed.

Lemma ascii_text_non_ascii (bs : bytes) :
  Exists (fun b => 128 <= byte_to_Z b) bs →
  Exists (fun c => (128 <= c)%N) (ascii_text bs).
Proof.
  induction 1 as [b bs Hb|b bs _ IH]; simpl.
  - apply Exists_cons_hd. lia.
  - apply Exists_cons_tl, IH.
Qed.

(** Removing a trailing "0000" does not remove a character above U+007F. *)
Lemma non_ascii_before_zeros (s : pystr) (n : nat) :
  Exists (fun c => (128 <= c)%N) s → drop n s = lit "0000" →
  Exists (fun c => (128 <= c)%N) (take n s).
Proof.
  intros Hex Hdrop. rewrite <- (take_drop n s), Hdrop in Hex.
  apply Exists_app in Hex as [Hex|Hex]; [exact Hex|].
  exfalso. repeat (inversion Hex as [? ? Hc|? ? Hex']; subst; [vm_compute in Hc; congruence|];
                   clear Hex; rename Hex' into Hex).
  inversion Hex.
Qed.

(** The "0000" rule of the source and of the specification agree. *)
Lemma strip_zeros_agree (s : pystr) :
  (if (Z.of_nat (length s) >? 4)
      && bool_decide (py_slice s (Some (-4)) None = lit "0000")
   then py_slice s (Some 0) (Some (-4)) else s)
  = (if decide ((4 < length s)%nat ∧ drop (length s - 4) s = lit "0000")
     then take (length s - 4) s else s).
Proof.
  destruct (Z.gtb_spec (Z.of_nat (length s)) 4) as [Hlen|Hlen]; simpl.
  - rewrite py_slice_last_4, py_slice_but_last_4 by lia.
    case_bool_decide; case_decide; try reflexivity; [|tauto].
    exfalso. apply H0. split; [lia | assumption].
  - case_decide as Hd; [lia | reflexivity].
Qed.

(** C6: on a response that begins with [+ok=], what
    [extract_modbus_respose] returns is what the specification describes:
    remove every 0x10 byte, drop the first 4 and the last 4 bytes, read the
    rest as ASCII text, remove a trailing "0000" when the text is longer
    than 4 characters and ends with it, and decode the hexadecimal text;
    the call raises exactly when that text is not hexadecimal text. *)
Theorem extract_modbus_respose_refines (at_cmd_response : bytes) :
  startswith at_cmd_response (blit "+ok=") = true →
  returned (extract_modbus_respose at_cmd_response)
  = extract_modbus_respose_spec at_cmd_response.
Proof.
  intros _. unfold extract_modbus_respose, extract_modbus_respose_spec.
  rewrite py_slice_4_minus_4.
  set (remaining := filter (fun b => b ≠ x10) at_cmd_response).
  set (inner := take (length (drop 4 remaining) - 4) (drop 4 remaining)).
  cbv zeta.
  destruct (ascii_or_not inner) as [Hascii|Hnon].
  - rewrite (decode_utf8_ascii _ Hascii), bind_Ok, strip_zeros_agree. reflexivity.
  - transitivity (@None bytes).
    + pose proof (decode_utf8_non_ascii _ Hnon) as Hdec.
      destruct (decode_utf8 inner) as [s|e]; [|reflexivity].
      rewrite bind_Ok, strip_zeros_agree.
      case_decide as Hz; [|apply fromhex_non_ascii, Hdec].
      apply fromhex_non_ascii, non_ascii_before_zeros; tauto.
    + symmetry. pose proof (ascii_text_non_ascii _ Hnon) as Htext.
      case_decide as Hz; [|apply fromhex_non_ascii, Htext].
      apply fromhex_non_ascii, non_ascii_before_zeros; tauto.
Qed.

Lemma extract_modbus_respose_refines_witness :
  returned (extract_modbus_respose
              (blit "+ok=01030400010002" ++ [x10] ++ blit "2a320000" ++ [x0d; x0a; x0d; x0a]))
  = extract_modbus_respose_spec
      (blit "+ok=01030400010002" ++ [x10] ++ blit "2a320000" ++ [x0d; x0a; x0d; x0a]).
Proof.
  apply (extract_modbus_respose_refines
           (blit "+ok=01030400010002" ++ [x10] ++ blit "2a320000" ++ [x0d; x0a; x0d; x0a])).
  vm_compute. reflexivity.
Defined.

Example extract_modbus_respose_example :
  extract_modbus_respose
    (blit "+ok=01030400010002" ++ [x10] ++ blit "2a320000" ++ [x0d; x0a; x0d; x0a])
  = Ok [x01; x03; x04; x00; x01; x00; x02; x2a; x32].
Proof. vm_compute. reflexivity. Qed.

(** ** OBIS record mapping *)

(** C9: a value whose text, after its two leading characters, is "01"
    (counter), "414243" (the bytes of "ABC"), "123" and "01" (serial, in
    hexadecimal) gives the meter identity "1ABC1231". *)
Theorem parse_meter_identity (c1 c2 : N) :
  parse_meter (VStr (c1 :: c2 :: lit "01" ++ lit "414243" ++ lit "123" ++ lit "01"))
  = Ok (lit "1ABC1231").
Proof. vm_compute. reflexivity. Qed.

(** [needle in hay] for a needle as long as the hay is equality. *)
Lemma str_startswith_same_length (s p : pystr) :
  length p = length s → str_startswith s p = true ↔ p = s.
Proof.
  revert s. induction p as [|c p IH]; intros [|d s] Hlen; simpl in *; try discriminate.
  - tauto.
  - injection Hlen as Hlen. rewrite andb_true_iff, N.eqb_eq, (IH s Hlen).
    split; [intros [-> ->]; reflexivity | intros [= -> ->]; tauto].
Qed.

Lemma str_startswith_length (s p : pystr) :
  str_startswith s p = true → (length p <= length s)%nat.
Proof.
  revert s. induction p as [|c p IH]; intros [|d s]; simpl; try lia; try discriminate.
  rewrite andb_true_iff. intros [_ H]. apply IH in H. lia.
Qed.

Lemma str_contains_length (hay needle : pystr) :
  str_contains hay needle = true → (length needle <= length hay)%nat.
Proof.
  induction hay as [|c hay IH]; cbn [str_contains].
  - rewrite orb_false_r. apply str_startswith_length.
  - rewrite orb_true_iff. intros [H|H].
    + apply str_startswith_length in H. exact H.
    + apply IH in H. simpl. lia.
Qed.

Lemma str_contains_same_length (hay needle : pystr) :
  length needle = length hay → str_contains hay needle = true ↔ needle = hay.
Proof.
  intros Hlen. destruct hay as [|c hay]; cbn [str_contains].
  - rewrite orb_false_r. apply str_startswith_same_length, Hlen.
  - rewrite orb_true_iff. split.
    + intros [H|H].
      * apply (str_startswith_same_length (c :: hay)); assumption.
      * apply str_contains_length in H. simpl in Hlen. lia.
    + intros ->. left. apply (str_startswith_same_length (c :: hay)); reflexivity.
Qed.

Lemma identity_tag_test (t : pystr) :
  length t = 12%nat →
  str_contains (lit "0100600100ff") t = true ↔ t = lit "0100600100ff".
Proof. intros Hlen. apply str_contains_same_length. rewrite Hlen. reflexivity. Qed.

(** C2: for a record whose tag [t] is a 6-byte OBIS identifier (12
    hexadecimal characters): the meter identity is parsed exactly when [t]
    is the identity tag, which is not a key of the mapping; otherwise, when
    [t] is a key of the mapping, [round(v * scale, 3)] is stored under the
    mapped name and the meter identity is kept; any other tag leaves both
    unchanged. *)
Theorem process_obis_dispatch {pyfloat : Type} (float_literal : string → pyfloat)
    (int_times_float : Z → pyfloat → result pyfloat) (round_float : pyfloat → Z → pyfloat)
    (st : measurements pyfloat) (t : pystr) (v : obis_value) :
  length t = 12%nat →
  obis_mapping pyfloat float_literal !! lit "0100600100ff" = None ∧
  (t = lit "0100600100ff" →
   process_obis pyfloat float_literal int_times_float round_float st
     {| obis := t; value := v |}
   = meter' ← parse_meter v; Ok {| values := values st; meter := meter' |}) ∧
  (t ≠ lit "0100600100ff" →
   ∀ name sc, obis_mapping pyfloat float_literal !! t = Some (name, sc) →
     process_obis pyfloat float_literal int_times_float round_float st
       {| obis := t; value := v |}
     = x ← round_scaled pyfloat int_times_float round_float v sc;
       Ok {| values := <[name := x]> (values st); meter := meter st |}) ∧
  (t ≠ lit "0100600100ff" →
   obis_mapping pyfloat float_literal !! t = None →
   process_obis pyfloat float_literal int_times_float round_float st
     {| obis := t; value := v |}
   = Ok st) ∧
  (∀ n f, round_scaled pyfloat int_times_float round_float (VInt n) (ScaleFloat f)
          = x ← int_times_float n f; Ok (NFloat (round_float x 3))).
Proof.
  intros Hlen. pose proof (identity_tag_test t Hlen) as Htest.
  split; [vm_compute; reflexivity|].
  split.
  { intros ->. unfold process_obis. cbn [obis value].
    rewrite (proj2 Htest eq_refl). reflexivity. }
  split.
  { intros Hne name sc Hlook. unfold process_obis. cbn [obis value].
    destruct (str_contains (lit "0100600100ff") t); [tauto|].
    rewrite Hlook. reflexivity. }
  split.
  { intros Hne Hlook. unfold process_obis. cbn [obis value].
    destruct (str_contains (lit "0100600100ff") t); [tauto|].
    rewrite Hlook. reflexivity. }
  reflexivity.
Qed.

Lemma process_obis_dispatch_witness :
  process_obis string (fun s => s) (fun _ _ => Raise OverflowError) (fun x _ => x)
    {| values := ∅; meter := [] |}
    {| obis := lit "0100100700ff"; value := VInt 1500 |}
  = Ok {| values := <[lit "power_total" := NInt 1500]> ∅; meter := [] |}.
Proof.
  pose proof (process_obis_dispatch (fun s => s) (fun _ _ => Raise OverflowError)
                (fun x _ => x) {| values := ∅; meter := [] |}
                (lit "0100100700ff") (VInt 1500) eq_refl) as (_ & _ & Hmapped & _).
  rewrite (Hmapped ltac:(discriminate) (lit "power_total") (ScaleInt 1)
             ltac:(vm_compute; reflexivity)).
  reflexivity.
Defined.

(** ** AT transport session *)

Lemma M_bind_unfold {A B} (m : M A) (f : A → M B) (w : world) :
  (m ≫= f) w = match m w with
               | (Ok a, w') => f a w'
               | (Raise e, w') => (Raise e, w')
               end.
Proof. reflexivity. Qed.

Lemma keeps_response_ret {A} (a : A) : keeps_response (mret a : M A).
Proof. intros w. reflexivity. Qed.

Lemma keeps_response_lift {A} (r : result A) : keeps_response (lift r).
Proof. intros w. reflexivity. Qed.

Lemma keeps_response_bind {A B} (m : M A) (f : A → M B) :
  keeps_response m → (∀ a, keeps_response (f a)) → keeps_response (m ≫= f).
Proof.
  intros Hm Hf w. rewrite M_bind_unfold. specialize (Hm w).
  destruct (m w) as [[a|e] w']; simpl in *; [|exact Hm].
  rewrite Hf. exact Hm.
Qed.

Lemma keeps_response_sendto (cmd : bytes) : keeps_response (sendto cmd).
Proof. intros w. unfold sendto. destruct (sendto_script w) as [|[e|] ?]; reflexivity. Qed.

Lemma keeps_response_recv : keeps_response recv.
Proof. intros w. unfold recv. destruct (recv_script w) as [|[d|e] ?]; reflexivity. Qed.

Lemma keeps_response_receive (attempts : nat) :
  keeps_response (receive_at_response_loop attempts).
Proof.
  induction attempts as [|n IH]; intros w; [reflexivity|].
  simpl. pose proof (keeps_response_recv w) as Hr.
  destruct (recv w) as [[[|b d]|e] w']; simpl in *.
  - rewrite IH. exact Hr.
  - exact Hr.
  - destruct e; simpl; try exact Hr. rewrite IH. exact Hr.
Qed.

Lemma keeps_response_session (req_frame : bytes) :
  keeps_response (session_until_response req_frame).
Proof.
  unfold session_until_response, authenticate, send_at_command, receive_at_response.
  repeat (apply keeps_response_bind; [|intros ?]);
    auto using keeps_response_sendto, keeps_response_receive, keeps_response_lift,
               keeps_response_ret.
Qed.

Lemma modbus_response_session_start (w : world) :
  modbus_response (session_start w) = None.
Proof. reflexivity. Qed.

Lemma socket_open_close (w : world) : socket_open (close w) = false.
Proof. reflexivity. Qed.

Lemma send_request_no_socket (req_frame : bytes) (w : world) :
  socket_opens w = false →
  send_request req_frame w = (Ok None, session_start w) ∧
  socket_open (session_start w) = false.
Proof.
  intros Hsock. unfold send_request, session_start, create_socket.
  change (socket_opens (assign_modbus_response None w)) with (socket_opens w).
  rewrite Hsock. split; reflexivity.
Qed.

Lemma send_request_socket (req_frame : bytes) (w : world) :
  socket_opens w = true →
  send_request req_frame w
  = match session_body req_frame (session_start w) with
    | (Ok (Return v), w2) => (Ok v, close w2)
    | (Ok Fallthrough, w2) => (Ok (modbus_response w2), close w2)
    | (Raise _, w2) => (Ok (modbus_response w2), close w2)
    end.
Proof.
  intros Hsock. unfold send_request, session_start, create_socket.
  change (socket_opens (assign_modbus_response None w)) with (socket_opens w).
  rewrite Hsock. reflexivity.
Qed.

(** The quit command is sent, whether or not the send succeeds. *)
Lemma deauthenticate_calls (w : world) :
  sendto_calls (deauthenticate w).2 = sendto_calls w ++ [quit_command] ∧
  modbus_response (deauthenticate w).2 = modbus_response w.
Proof.
  unfold deauthenticate, send_at_command, sendto.
  destruct (sendto_script w) as [|[e|] ?]; split; reflexivity.
Qed.

Ltac unfold_handle_response :=
  unfold handle_response; cbn [from_option is_falsy orb]; unfold id.

(** What the rest of the block does with a response that is none of the
    three known replies: the quit command is sent and the end of the block
    is reached, or the send raises. *)
Lemma handle_response_unrecognised (r : bytes) (w : world) :
  r ≠ [] →
  startswith r (blit "+ok=no data") = false →
  startswith r (blit "+ERR=") = false →
  startswith r (blit "+ok=") = false →
  handle_response (Some r) w
  = (match (deauthenticate w).1 with Ok _ => Ok Fallthrough | Raise e => Raise e end,
     (deauthenticate w).2).
Proof.
  intros Hne H1 H2 H3. destruct r as [|b r]; [congruence|]. unfold_handle_response.
  rewrite H1, H2, H3. unfold mbind, M_bind, mret, M_ret. cbv beta iota.
  destruct (deauthenticate w) as [[[]|e] w']; reflexivity.
Qed.

(** What the rest of the block does with a [+ok=] response. *)
Lemma handle_response_ok (r : bytes) (w : world) :
  startswith r (blit "+ok=no data") = false →
  startswith r (blit "+ERR=") = false →
  startswith r (blit "+ok=") = true →
  handle_response (Some r) w
  = match extract_modbus_respose r with
    | Ok v =>
        let w' := assign_modbus_response (Some v) w in
        (match (deauthenticate w').1 with Ok _ => Ok Fallthrough | Raise e => Raise e end,
         (deauthenticate w').2)
    | Raise e => (Raise e, w)
    end.
Proof.
  intros H1 H2 H3. destruct r as [|b r]; [discriminate|]. unfold_handle_response.
  rewrite H1, H2, H3. unfold mbind, M_bind, mret, M_ret, lift, set_modbus_response.
  cbv beta iota zeta.
  destruct (extract_modbus_respose (b :: r)) as [v|e]; [|reflexivity].
  destruct (deauthenticate (assign_modbus_response (Some v) w)) as [[[]|e] w']; reflexivity.
Qed.

(** C7 (as amended): [send_request] never raises and always closes the
    socket it opened.  Its result is [None] when the socket cannot be
    opened, when authentication, a send, the receive or the extraction
    raises, and when the response is absent, empty, [+ok=no data],
    [+ERR=...] or unrecognised; the only other result is the frame
    extracted from a [+ok=] response, which is returned whether or not the
    send of the quit command raises afterwards. *)
Theorem send_request_never_raises (req_frame : bytes) (w : world) :
  (send_request req_frame w).1
  = Ok (if socket_opens w then
          match (session_until_response req_frame (session_start w)).1 with
          | Ok (Some r) =>
              if startswith r (blit "+ok=no data") || startswith r (blit "+ERR=")
              then None
              else if startswith r (blit "+ok=")
                   then returned (extract_modbus_respose r)
                   else None
          | Ok None => None
          | Raise _ => None
          end
        else None) ∧
  socket_open (send_request req_frame w).2 = false.
Proof.
  destruct (socket_opens w) eqn:Hsock.
  2: { destruct (send_request_no_socket req_frame w Hsock) as [-> Hopen].
       split; [reflexivity | exact Hopen]. }
  rewrite (send_request_socket _ _ Hsock). unfold session_body.
  rewrite M_bind_unfold.
  pose proof (keeps_response_session req_frame (session_start w)) as Hkeep.
  rewrite modbus_response_session_start in Hkeep.
  destruct (session_until_response req_frame (session_start w)) as [[r|e] w2];
    simpl in Hkeep; simpl fst.
  2: { simpl. rewrite Hkeep. split; reflexivity. }
  destruct r as [[|b r]|]; try (split; reflexivity).
  destruct (startswith (b :: r) (blit "+ok=no data")) eqn:H1;
    [unfold_handle_response; rewrite H1; split; reflexivity|].
  destruct (startswith (b :: r) (blit "+ERR=")) eqn:H2;
    [unfold_handle_response; rewrite H1, H2; split; reflexivity|].
  cbn [orb].
  destruct (startswith (b :: r) (blit "+ok=")) eqn:H3.
  - rewrite (handle_response_ok _ _ H1 H2 H3).
    destruct (extract_modbus_respose (b :: r)) as [v|e]; simpl.
    + pose proof (deauthenticate_calls (assign_modbus_response (Some v) w2)) as [_ Hresp].
      destruct (deauthenticate (assign_modbus_response (Some v) w2)) as [[[]|e] w3];
        simpl in *; rewrite Hresp; split; reflexivity.
    + rewrite Hkeep. split; reflexivity.
  - rewrite (handle_response_unrecognised (b :: r) w2 ltac:(discriminate) H1 H2 H3).
    pose proof (deauthenticate_calls w2) as [_ Hresp].
    destruct (deauthenticate w2) as [[[]|e] w3]; simpl in *;
      rewrite Hresp, Hkeep; split; reflexivity.
Qed.

(** C7, as stated, fails when the send of the quit command raises after a
    frame was extracted: the error is raised inside the session body and
    caught, and the call returns the frame, not [None]. *)
Lemma send_request_quit_failure_returns_frame :
  (session_body sample_request (session_start world_quit_fails)).1 = Raise OSError ∧
  (send_request sample_request world_quit_fails).1
  = Ok (Some [x01; x03; x04; x00; x01; x00; x02; x2a; x32]) ∧
  (send_request sample_request world_quit_fails).1 ≠ Ok None.
Proof.
  split; [vm_compute; reflexivity|].
  split; [vm_compute; reflexivity|].
  vm_compute. discriminate.
Qed.

(** C10: a non-empty response that begins with none of [+ok=no data],
    [+ERR=] and [+ok=] makes [send_request] return [None], as for no
    response: nothing is raised, the quit command is the last command sent
    and the socket is closed. *)
Theorem send_request_unrecognised (req_frame : bytes) (w w2 : world) (r : bytes) :
  socket_opens w = true →
  session_until_response req_frame (session_start w) = (Ok (Some r), w2) →
  r ≠ [] →
  startswith r (blit "+ok=no data") = false →
  startswith r (blit "+ERR=") = false →
  startswith r (blit "+ok=") = false →
  ∃ w' : world,
    send_request req_frame w = (Ok None, w') ∧
    socket_open w' = false ∧
    sendto_calls w' = sendto_calls w2 ++ [quit_command].
Proof.
  intros Hsock Hsession Hne H1 H2 H3.
  pose proof (keeps_response_session req_frame (session_start w)) as Hkeep.
  rewrite Hsession, modbus_response_session_start in Hkeep. simpl in Hkeep.
  rewrite (send_request_socket _ _ Hsock). unfold session_body.
  rewrite M_bind_unfold, Hsession.
  rewrite (handle_response_unrecognised _ _ Hne H1 H2 H3).
  pose proof (deauthenticate_calls w2) as [Hcalls Hresp].
  destruct (deauthenticate w2) as [[[]|e] w3]; simpl in *;
    rewrite Hresp, Hkeep; eexists; (split; [reflexivity|]); split;
      [reflexivity | exact Hcalls | reflexivity | exact Hcalls].
Qed.

Lemma send_request_unrecognised_witness :
  ∃ w' : world,
    send_request sample_request world_unrecognised = (Ok None, w') ∧
    socket_open w' = false ∧
    sendto_calls w'
    = sendto_calls (session_until_response sample_request
                      (session_start world_unrecognised)).2 ++ [quit_command].
Proof.
  apply (send_request_unrecognised sample_request world_unrecognised
           (session_until_response sample_request (session_start world_unrecognised)).2
           (blit "+busy"));
    [reflexivity | vm_compute; reflexivity | discriminate
    | reflexivity | reflexivity | reflexivity].
Defined.

(** * Further properties of the code *)

(** ** Hexadecimal text *)

Lemma hex_digit_cases (d : Z) :
  0 <= d < 16 →
  hex_value (hex_digit d) = Some d ∧ hex_isspace (hex_digit d) = false ∧
  (48 <= hex_digit d < 128)%N ∧ (hex_digit d = 48%N → d = 0).
Proof.
  intros Hd.
  assert (d = 0 ∨ d = 1 ∨ d = 2 ∨ d = 3 ∨ d = 4 ∨ d = 5 ∨ d = 6 ∨ d = 7 ∨ d = 8
          ∨ d = 9 ∨ d = 10 ∨ d = 11 ∨ d = 12 ∨ d = 13 ∨ d = 14 ∨ d = 15) as Hcases by lia.
  repeat (destruct Hcases as [->|Hcases]); try subst d;
    (split; [reflexivity|]; split; [reflexivity|]; split; [vm_compute; split; [discriminate|reflexivity]|]);
    vm_compute; congruence.
Qed.

Lemma byte_nibbles (b : byte) :
  0 <= byte_to_Z b / 16 < 16 ∧ 0 <= byte_to_Z b mod 16 < 16 ∧
  byte_of_Z (byte_to_Z b / 16 * 16 + byte_to_Z b mod 16) = b.
Proof.
  pose proof (byte_to_Z_range b) as Hb.
  split; [split; [apply Z.div_pos; lia | apply Z.div_lt_upper_bound; lia]|].
  split; [apply Z.mod_pos_bound; lia|].
  rewrite <- (byte_of_to_Z b) at 3. f_equal.
  pose proof (Z.div_mod (byte_to_Z b) 16 ltac:(lia)). lia.
Qed.

(** [bytes.fromhex(bs.hex()) == bs] *)
Lemma fromhex_bytes_hex (bs : bytes) : fromhex (bytes_hex bs) = Ok bs.
Proof.
  induction bs as [|b bs IH]; [reflexivity|].
  destruct (byte_nibbles b) as (Hhi & Hlo & Hb).
  destruct (hex_digit_cases _ Hhi) as (Hv1 & Hs1 & _).
  destruct (hex_digit_cases _ Hlo) as (Hv2 & _).
  change (bytes_hex (b :: bs))
    with (hex_digit (byte_to_Z b / 16) :: hex_digit (byte_to_Z b mod 16) :: bytes_hex bs).
  cbn [fromhex]. rewrite Hs1, Hv1, Hv2, IH, bind_Ok, Hb. reflexivity.
Qed.

Lemma bytes_hex_app (a b : bytes) : bytes_hex (a ++ b) = bytes_hex a ++ bytes_hex b.
Proof. unfold bytes_hex. apply flat_map_app. Qed.

Lemma length_bytes_hex (bs : bytes) : length (bytes_hex bs) = (2 * length bs)%nat.
Proof.
  induction bs as [|b bs IH]; [reflexivity|].
  change (bytes_hex (b :: bs))
    with (hex_digit (byte_to_Z b / 16) :: hex_digit (byte_to_Z b mod 16) :: bytes_hex bs).
  cbn [length]. rewrite IH. lia.
Qed.

Lemma bytes_hex_ascii (bs : bytes) : Forall (fun c => (48 <= c < 128)%N) (bytes_hex bs).
Proof.
  induction bs as [|b bs IH]; [constructor|].
  destruct (byte_nibbles b) as (Hhi & Hlo & _).
  change (bytes_hex (b :: bs))
    with (hex_digit (byte_to_Z b / 16) :: hex_digit (byte_to_Z b mod 16) :: bytes_hex bs).
  repeat constructor; try apply hex_digit_cases; assumption.
Qed.

Lemma int_digits_ascii (base : Z) (fuel : nat) (n : Z) (acc : pystr) :
  2 <= base <= 16 → Forall (fun c => (48 <= c < 128)%N) acc →
  Forall (fun c => (48 <= c < 128)%N) (int_digits base fuel n acc).
Proof.
  intros Hbase. revert n acc. induction fuel as [|fuel IH]; intros n acc Hacc; simpl;
    [exact Hacc|].
  assert (Forall (fun c => (48 <= c < 128)%N) (hex_digit (n mod base) :: acc)) as Hacc'.
  { constructor; [|exact Hacc]. apply hex_digit_cases.
    pose proof (Z.mod_pos_bound n base ltac:(lia)). lia. }
  destruct (n / base =? 0); [exact Hacc' | apply IH, Hacc'].
Qed.

Lemma digits_below_128 (s : pystr) :
  Forall (fun c => (48 <= c < 128)%N) s → Forall (fun c => (c < 128)%N) s.
Proof. induction 1; constructor; [lia | assumption]. Qed.

Lemma encode_ascii_text (s : pystr) :
  Forall (fun c => (c < 128)%N) s → encode_ascii s = Ok (text_bytes s).
Proof.
  induction 1 as [|c s Hc _ IH]; [reflexivity|].
  simpl. destruct (N.ltb_spec c 128); [|lia]. rewrite IH. reflexivity.
Qed.

Lemma lit_ascii (s : string) :
  forallb (fun c => (c <? 128)%N) (lit s) = true → Forall (fun c => (c < 128)%N) (lit s).
Proof.
  intros H. rewrite forallb_forall in H. apply List.Forall_forall.
  intros c Hc. apply H in Hc. lia.
Qed.

Lemma invdata_command_ok (req_frame : bytes) :
  invdata_command req_frame = Ok (invdata_bytes req_frame).
Proof.
  unfold invdata_command, invdata_bytes.
  rewrite length_bytes_hex.
  replace (Z.of_nat (2 * length req_frame) / 2) with (Z.of_nat (length req_frame))
    by (rewrite Nat2Z.inj_mul, Z.mul_comm, Z.div_mul; lia).
  assert (Forall (fun c => (c < 128)%N)
            (py_str_int (Z.of_nat (length req_frame)))) as Hlen.
  { unfold py_str_int. destruct (Z.ltb_spec (Z.of_nat (length req_frame)) 0); [lia|].
    apply digits_below_128, int_digits_ascii; [lia | constructor]. }
  assert (Forall (fun c => (c < 128)%N) (bytes_hex req_frame)) as Hhex
    by apply digits_below_128, bytes_hex_ascii.
  rewrite encode_ascii_text.
  - unfold text_bytes. rewrite !map_app. reflexivity.
  - repeat apply Forall_app_2; try assumption;
      try (apply lit_ascii; vm_compute; reflexivity).
    constructor; [lia | constructor].
Qed.

(** X1: the command built for a request never fails to encode; it is
    [AT+INVDATA=], the length of the request frame in decimal, a comma, the
    frame in hexadecimal digits and a line feed, and the digits decode back
    to the request frame. *)
Theorem invdata_command_carries_request (req_frame : bytes) :
  invdata_command req_frame
  = Ok (blit "AT+INVDATA=" ++ text_bytes (py_str_int (Z.of_nat (length req_frame)))
          ++ blit "," ++ text_bytes (bytes_hex req_frame) ++ [x0a]) ∧
  fromhex (bytes_hex req_frame) = Ok req_frame.
Proof.
  split; [apply invdata_command_ok | apply fromhex_bytes_hex].
Qed.

(** ** Extraction of the frame carried by a reply *)

Lemma ascii_text_text_bytes (s : pystr) :
  Forall (fun c => (c < 128)%N) s →
  Forall (fun b => byte_to_Z b < 128) (text_bytes s) ∧ ascii_text (text_bytes s) = s.
Proof.
  induction 1 as [|c s Hc _ [IH1 IH2]]; [split; [constructor | reflexivity]|].
  assert (byte_to_Z (byte_of_Z (Z.of_N c)) = Z.of_N c) as Hb
    by (rewrite byte_to_of_Z; apply Z.mod_small; lia).
  split.
  - constructor; [rewrite Hb; lia | exact IH1].
  - simpl. rewrite Hb, N2Z.id. f_equal. exact IH2.
Qed.

(** On a reply of the device, the extraction decodes the hexadecimal text
    of the frame, after the "0000" rule. *)
Lemma extract_at_reply (at_cmd_response frame trailer : bytes) :
  filter (fun b => b ≠ x10) at_cmd_response = at_reply frame trailer →
  length trailer = 4%nat →
  extract_modbus_respose at_cmd_response
  = fromhex (if decide ((4 < length (bytes_hex frame))%nat
                        ∧ drop (length (bytes_hex frame) - 4) (bytes_hex frame) = lit "0000")
             then take (length (bytes_hex frame) - 4) (bytes_hex frame)
             else bytes_hex frame).
Proof.
  intros Hfilter Htrailer. unfold extract_modbus_respose.
  rewrite Hfilter, py_slice_4_minus_4. unfold at_reply.
  change (drop 4 (blit "+ok=" ++ text_bytes (bytes_hex frame) ++ trailer))
    with (text_bytes (bytes_hex frame) ++ trailer).
  rewrite length_app, Htrailer, Nat.add_sub, take_app_length.
  destruct (ascii_text_text_bytes (bytes_hex frame)
              (digits_below_128 _ (bytes_hex_ascii frame))) as [Hascii Htext].
  rewrite (decode_utf8_ascii _ Hascii), Htext, bind_Ok, strip_zeros_agree.
  reflexivity.
Qed.

Lemma byte_hex_zero (b : byte) :
  hex_digit (byte_to_Z b / 16) = 48%N → hex_digit (byte_to_Z b mod 16) = 48%N → b = x00.
Proof.
  intros Hhi Hlo. destruct (byte_nibbles b) as (Rhi & Rlo & Hb).
  apply (proj2 (proj2 (proj2 (hex_digit_cases _ Rhi)))) in Hhi.
  apply (proj2 (proj2 (proj2 (hex_digit_cases _ Rlo)))) in Hlo.
  rewrite Hhi, Hlo in Hb. symmetry. exact Hb.
Qed.

(** The hexadecimal text of a frame ends with "0000", after at least one
    more character, exactly when the frame ends with two zero bytes after
    at least one more byte. *)
Lemma bytes_hex_zero_suffix (frame : bytes) :
  (4 < length (bytes_hex frame))%nat
  ∧ drop (length (bytes_hex frame) - 4) (bytes_hex frame) = lit "0000"
  ↔ ∃ f, f ≠ [] ∧ frame = f ++ [x00; x00].
Proof.
  split.
  - intros [Hlen Hdrop]. rewrite length_bytes_hex in Hlen.
    set (f := take (length frame - 2) frame).
    assert (length (drop (length frame - 2) frame) = 2%nat) as Hlast
      by (rewrite length_drop; lia).
    destruct (drop (length frame - 2) frame) as [|b1 [|b2 [|? ?]]] eqn:Htail;
      try discriminate.
    assert (frame = f ++ [b1; b2]) as Hframe
      by (rewrite <- Htail; symmetry; apply take_drop).
    assert (length f = (length frame - 2)%nat) as Hf
      by (unfold f; rewrite length_take; lia).
    rewrite Hframe, bytes_hex_app in Hdrop.
    replace (length (bytes_hex f ++ bytes_hex [b1; b2]) - 4)%nat
      with (length (bytes_hex f)) in Hdrop
      by (rewrite length_app, !length_bytes_hex; simpl; lia).
    rewrite drop_app_length in Hdrop.
    injection Hdrop as H1 H2 H3 H4.
    exists f. split; [intros ->; simpl in Hf; lia|].
    rewrite Hframe. repeat f_equal; apply byte_hex_zero; assumption.
  - intros (f & Hne & ->). rewrite bytes_hex_app.
    change (bytes_hex [x00; x00]) with (lit "0000").
    rewrite length_app, length_bytes_hex. split.
    + destruct f; [congruence | simpl; lia].
    + replace (2 * length f + length (lit "0000") - 4)%nat with (length (bytes_hex f))
        by (rewrite length_bytes_hex; simpl; lia).
      apply drop_app_length.
Qed.

(** X2: a reply [+ok=<frame in hexadecimal><4 trailer bytes>], with 0x10
    padding bytes anywhere in it, extracts to the frame itself, unless the
    frame ends with two zero bytes after at least one other byte. *)
Theorem extract_reply_round_trip (at_cmd_response frame trailer : bytes) :
  filter (fun b => b ≠ x10) at_cmd_response = at_reply frame trailer →
  length trailer = 4%nat →
  ¬ (∃ f, f ≠ [] ∧ frame = f ++ [x00; x00]) →
  extract_modbus_respose at_cmd_response = Ok frame.
Proof.
  intros Hfilter Htrailer Hzeros.
  rewrite (extract_at_reply _ _ _ Hfilter Htrailer).
  case_decide as Hd; [exfalso; apply Hzeros, bytes_hex_zero_suffix, Hd|].
  apply fromhex_bytes_hex.
Qed.

Lemma extract_reply_round_trip_witness :
  extract_modbus_respose
    (blit "+ok=0103" ++ [x10] ++ blit "04000100022a32" ++ [x0d; x0a; x0d; x0a])
  = Ok [x01; x03; x04; x00; x01; x00; x02; x2a; x32].
Proof.
  apply (extract_reply_round_trip _ [x01; x03; x04; x00; x01; x00; x02; x2a; x32]
           [x0d; x0a; x0d; x0a]); [vm_compute; reflexivity | reflexivity |].
  intros (f & _ & Hf).
  apply (f_equal (fun l => drop (length l - 2) l)) in Hf.
  rewrite length_app, Nat.add_sub, drop_app_length in Hf. discriminate.
Defined.

(** X3: when the frame carried by a reply ends with two zero bytes after at
    least one other byte, the extraction returns the frame without these
    two bytes: they are taken for the "0000" padding. *)
Theorem extract_reply_loses_zero_word (at_cmd_response f trailer : bytes) :
  filter (fun b => b ≠ x10) at_cmd_response = at_reply (f ++ [x00; x00]) trailer →
  length trailer = 4%nat →
  f ≠ [] →
  extract_modbus_respose at_cmd_response = Ok f.
Proof.
  intros Hfilter Htrailer Hne.
  rewrite (extract_at_reply _ _ _ Hfilter Htrailer).
  assert (∃ g, g ≠ [] ∧ f ++ [x00; x00] = g ++ [x00; x00]) as Hz by eauto.
  apply bytes_hex_zero_suffix in Hz.
  case_decide as Hd; [|tauto].
  rewrite bytes_hex_app.
  replace (length (bytes_hex f ++ bytes_hex [x00; x00]) - 4)%nat
    with (length (bytes_hex f))
    by (rewrite length_app, !length_bytes_hex; simpl; lia).
  rewrite take_app_length. apply fromhex_bytes_hex.
Qed.

Lemma extract_reply_loses_zero_word_witness :
  extract_modbus_respose
    (blit "+ok=010302123" ++ [x10] ++ blit "40000" ++ [x0d; x0a; x0d; x0a])
  = Ok [x01; x03; x02; x12; x34].
Proof.
  apply (extract_reply_loses_zero_word _ [x01; x03; x02; x12; x34] [x0d; x0a; x0d; x0a]);
    [vm_compute; reflexivity | reflexivity | discriminate].
Defined.

(** ** What an accepted response frame guarantees *)

Lemma length_py_slice_two {A} (l : list A) (i : Z) :
  0 <= i → i + 2 <= Z.of_nat (length l) →
  length (py_slice l (Some i) (Some (i + 2))) = 2%nat.
Proof.
  intros Hi Hlen. rewrite py_slice_range by lia.
  rewrite length_take, length_drop. lia.
Qed.

(** The two-byte window of a frame at an offset within the frame. *)
Lemma py_slice_two_bytes (frame : bytes) (i : Z) :
  0 <= i → i + 2 <= Z.of_nat (length frame) →
  ∃ b0 b1 : byte,
    frame !! Z.to_nat i = Some b0 ∧ frame !! Z.to_nat (i + 1) = Some b1 ∧
    py_slice frame (Some i) (Some (i + 2)) = [b0; b1].
Proof.
  intros Hi Hlen. rewrite py_slice_range by lia.
  replace (i + 2 - i) with 2 by lia. change (Z.to_nat 2) with 2%nat.
  replace (Z.to_nat (i + 1)) with (S (Z.to_nat i)) by lia.
  destruct (lookup_lt_is_Some_2 frame (Z.to_nat i) ltac:(lia)) as [b0 Hb0].
  destruct (lookup_lt_is_Some_2 frame (S (Z.to_nat i)) ltac:(lia)) as [b1 Hb1].
  exists b0, b1. split; [exact Hb0|]. split; [exact Hb1|].
  rewrite (drop_S _ _ _ Hb0), (take_S_r _ _ b1); [reflexivity|].
  change ((b0 :: drop (S (Z.to_nat i)) frame) !! 1%nat)
    with (drop (S (Z.to_nat i)) frame !! 0%nat).
  rewrite lookup_drop, Nat.add_0_r. exact Hb1.
Qed.

(** What the success of the parser means, step by step. *)
Lemma parse_ok_inv (frame : bytes) (first_reg last_reg : Z) (registers : gmap Z bytes) :
  parse_modbus_read_holding_registers_response frame first_reg last_reg = Ok registers →
  let reg_count := last_reg - first_reg + 1 in
  2 + 1 + reg_count * 2 + 2 <= Z.of_nat (length frame) ∧
  from_bytes_little (py_slice frame (Some (2 + 1 + reg_count * 2))
                                    (Some (2 + 1 + reg_count * 2 + 2)))
  = libscrc_modbus (py_slice frame (Some 0) (Some (2 + 1 + reg_count * 2))) ∧
  registers = parse_registers (Z.to_nat reg_count) frame first_reg reg_count 0 ∅.
Proof.
  unfold parse_modbus_read_holding_registers_response. cbv zeta.
  destruct (Z.ltb_spec (Z.of_nat (length frame))
              (2 + 1 + (last_reg - first_reg + 1) * 2 + 2)); [discriminate|].
  destruct (Z.eqb_spec
              (from_bytes_little
                 (py_slice frame (Some (2 + 1 + (last_reg - first_reg + 1) * 2))
                    (Some (2 + 1 + (last_reg - first_reg + 1) * 2 + 2))))
              (libscrc_modbus
                 (py_slice frame (Some 0) (Some (2 + 1 + (last_reg - first_reg + 1) * 2)))));
    simpl; [|discriminate].
  intros [= <-]. auto.
Qed.

(** X4: whenever the parser accepts a frame for [first_reg .. last_reg]
    (with [last_reg >= first_reg - 1]), the frame holds at least the
    expected bytes, its CRC field matches the CRC-16/MODBUS of the payload,
    and the register map has exactly [last_reg - first_reg + 1] entries,
    keyed [first_reg .. last_reg], each of exactly two bytes. *)
Theorem parse_accepts_only_checked_frames (frame : bytes) (first_reg last_reg : Z)
    (registers : gmap Z bytes) :
  first_reg - 1 <= last_reg →
  parse_modbus_read_holding_registers_response frame first_reg last_reg = Ok registers →
  3 + 2 * (last_reg - first_reg + 1) + 2 <= Z.of_nat (length frame) ∧
  from_bytes_little (take 2 (drop (Z.to_nat (3 + 2 * (last_reg - first_reg + 1))) frame))
  = libscrc_modbus (take (Z.to_nat (3 + 2 * (last_reg - first_reg + 1))) frame) ∧
  Z.of_nat (size registers) = last_reg - first_reg + 1 ∧
  (∀ a, is_Some (registers !! a) ↔ first_reg <= a <= last_reg) ∧
  (∀ a v, registers !! a = Some v → length v = 2%nat).
Proof.
  intros Hrange Hparse. apply parse_ok_inv in Hparse as (Hlen & Hcrc & ->).
  set (reg_count := last_reg - first_reg + 1) in *.
  split; [lia|]. split.
  { rewrite !py_slice_range in Hcrc by lia.
    replace (3 + 2 * reg_count) with (2 + 1 + reg_count * 2) by lia.
    replace (2 + 1 + reg_count * 2 + 2 - (2 + 1 + reg_count * 2)) with 2 in Hcrc by lia.
    rewrite Z.sub_0_r in Hcrc. change (Z.to_nat 0) with 0%nat in Hcrc.
    rewrite drop_0 in Hcrc. exact Hcrc. }
  split.
  { rewrite parse_registers_size; [rewrite map_size_empty; lia | f_equal; lia |].
    intros k _. apply lookup_empty. }
  split.
  { intros a. rewrite parse_registers_lookup by (f_equal; lia).
    case_decide.
    - split; [intros _; lia | intros _; eauto].
    - rewrite lookup_empty. split; [intros [? ?]; discriminate | lia]. }
  intros a v. rewrite parse_registers_lookup by (f_equal; lia).
  case_decide; [|rewrite lookup_empty; discriminate].
  intros [= <-]. apply length_py_slice_two; lia.
Qed.

Lemma parse_accepts_only_checked_frames_witness :
  Z.of_nat (size (parse_registers 1 (with_crc [x01; x03; x02; xff; x38] ++ [x00]) 73 1 0 ∅))
  = 73 - 73 + 1.
Proof.
  assert (parse_modbus_read_holding_registers_response
            (with_crc [x01; x03; x02; xff; x38] ++ [x00]) 73 73
          = Ok (parse_registers 1 (with_crc [x01; x03; x02; xff; x38] ++ [x00]) 73 1 0 ∅))
    as H by (vm_compute; reflexivity).
  exact (proj1 (proj2 (proj2
           (parse_accepts_only_checked_frames _ 73 73 _ ltac:(lia) H)))).
Defined.

Lemma py_slice_app_l {A} (l1 l2 : list A) (i j : Z) :
  0 <= i <= j → j <= Z.of_nat (length l1) →
  py_slice (l1 ++ l2) (Some i) (Some j) = py_slice l1 (Some i) (Some j).
Proof.
  intros Hij Hj. rewrite !py_slice_range by (rewrite ?length_app; lia).
  rewrite drop_app_le by lia. apply take_app_le. rewrite length_drop. lia.
Qed.

(** X5: bytes that follow the CRC of a valid response are ignored: the
    frame parses to the same register map with or without them. *)
Theorem parse_ignores_trailing_bytes (first_reg last_reg : Z) (data extra : bytes) :
  first_reg - 1 <= last_reg →
  Z.of_nat (length data) = 3 + 2 * (last_reg - first_reg + 1) →
  parse_modbus_read_holding_registers_response (with_crc data ++ extra) first_reg last_reg
  = parse_modbus_read_holding_registers_response (with_crc data) first_reg last_reg.
Proof.
  intros Hrange Hlen.
  set (reg_count := last_reg - first_reg + 1) in *.
  assert (length (with_crc data) = (length data + 2)%nat) as Hl
    by (unfold with_crc; rewrite length_app; reflexivity).
  unfold parse_modbus_read_holding_registers_response. fold reg_count. cbv zeta.
  rewrite length_app, Hl.
  destruct (Z.ltb_spec (Z.of_nat (length data + 2 + length extra))
              (2 + 1 + reg_count * 2 + 2)); [lia|].
  destruct (Z.ltb_spec (Z.of_nat (length data + 2)) (2 + 1 + reg_count * 2 + 2)); [lia|].
  rewrite !(py_slice_app_l (with_crc data) extra) by lia.
  destruct (negb _); [reflexivity|]. f_equal.
  apply map_eq. intros k. rewrite !parse_registers_lookup by (f_equal; lia).
  case_decide; [|reflexivity].
  rewrite py_slice_app_l by lia. reflexivity.
Qed.

Lemma parse_ignores_trailing_bytes_witness :
  parse_modbus_read_holding_registers_response
    (with_crc [x01; x03; x02; xff; x38] ++ [x0d; x0a]) 73 73
  = parse_modbus_read_holding_registers_response (with_crc [x01; x03; x02; xff; x38]) 73 73.
Proof.
  apply parse_ignores_trailing_bytes; [lia | reflexivity].
Defined.

(** ** Decoding the registers of a parsed response *)

Lemma parsed_entry (frame : bytes) (first_reg last_reg a : Z) (registers : gmap Z bytes) :
  parse_modbus_read_holding_registers_response frame first_reg last_reg = Ok registers →
  first_reg <= a <= last_reg →
  ∃ b0 b1 : byte,
    frame !! Z.to_nat (3 + 2 * (a - first_reg)) = Some b0 ∧
    frame !! Z.to_nat (3 + 2 * (a - first_reg) + 1) = Some b1 ∧
    registers !! a = Some [b0; b1].
Proof.
  intros Hparse Ha. apply parse_ok_inv in Hparse as (Hlen & _ & ->).
  rewrite parse_registers_lookup by (f_equal; lia).
  case_decide; [|lia].
  replace (3 + (a - first_reg) * 2) with (3 + 2 * (a - first_reg)) by lia.
  destruct (py_slice_two_bytes frame (3 + 2 * (a - first_reg)) ltac:(lia) ltac:(lia))
    as (b0 & b1 & H0 & H1 & Hs).
  exists b0, b1. rewrite Hs. auto.
Qed.

Lemma parsed_missing (frame : bytes) (first_reg last_reg a : Z) (registers : gmap Z bytes) :
  parse_modbus_read_holding_registers_response frame first_reg last_reg = Ok registers →
  a < first_reg ∨ last_reg < a →
  registers !! a = None.
Proof.
  intros Hparse Ha. apply parse_ok_inv in Hparse as (_ & _ & ->).
  destruct (Z.le_gt_cases 0 (last_reg - first_reg + 1)) as [Hc|Hc].
  - rewrite parse_registers_lookup by (f_equal; lia).
    case_decide; [lia | apply lookup_empty].
  - replace (Z.to_nat (last_reg - first_reg + 1)) with 0%nat by lia. apply lookup_empty.
Qed.

(** X6: on the register map of an accepted frame, every address in
    [first_reg .. last_reg] decodes without error to the big-endian value of
    its two frame bytes: [read_unit16] and [read_unit32] both return
    [b0 * 256 + b1], [read_int16] its two's-complement reading, and
    [read_int32] the same non-negative value as [read_unit32]. *)
Theorem decode_parsed_register (frame : bytes) (first_reg last_reg a : Z)
    (registers : gmap Z bytes) :
  parse_modbus_read_holding_registers_response frame first_reg last_reg = Ok registers →
  first_reg <= a <= last_reg →
  ∃ b0 b1 : byte,
    frame !! Z.to_nat (3 + 2 * (a - first_reg)) = Some b0 ∧
    frame !! Z.to_nat (3 + 2 * (a - first_reg) + 1) = Some b1 ∧
    let u := byte_to_Z b0 * 256 + byte_to_Z b1 in
    0 <= u < 65536 ∧
    read_unit16 registers a = Ok u ∧
    read_unit32 registers a = Ok u ∧
    read_int16 registers a = Ok (if u >? 32767 then u - 65536 else u) ∧
    read_int32 registers a = Ok u.
Proof.
  intros Hparse Ha.
  destruct (parsed_entry _ _ _ _ _ Hparse Ha) as (b0 & b1 & H0 & H1 & Hreg).
  exists b0, b1. split; [exact H0|]. split; [exact H1|]. intros u.
  pose proof (byte_to_Z_range b0). pose proof (byte_to_Z_range b1).
  assert (0 <= u < 65536) as Hu by (subst u; lia).
  assert (Z.land (from_bytes_big [b0; b1]) 0xffff = u) as H16
    by (rewrite land_ffff, from_bytes_big_two; apply Z.mod_small; lia).
  assert (Z.land (from_bytes_big [b0; b1]) 0xffffffff = u) as H32
    by (rewrite land_ffffffff, from_bytes_big_two; apply Z.mod_small; lia).
  unfold read_int32, read_unit32, read_unit16, read_int16, getitem.
  rewrite Hreg, !bind_Ok, H16, H32.
  destruct (Z.gtb_spec u 2147483647); [lia|]. auto.
Qed.

Lemma decode_parsed_register_witness :
  ∃ b0 b1 : byte,
    with_crc [x01; x03; x02; xff; x38] !! Z.to_nat (3 + 2 * (73 - 73)) = Some b0 ∧
    with_crc [x01; x03; x02; xff; x38] !! Z.to_nat (3 + 2 * (73 - 73) + 1) = Some b1 ∧
    let u := byte_to_Z b0 * 256 + byte_to_Z b1 in
    0 <= u < 65536 ∧
    read_unit16 (parse_registers 1 (with_crc [x01; x03; x02; xff; x38]) 73 1 0 ∅) 73 = Ok u ∧
    read_unit32 (parse_registers 1 (with_crc [x01; x03; x02; xff; x38]) 73 1 0 ∅) 73 = Ok u ∧
    read_int16 (parse_registers 1 (with_crc [x01; x03; x02; xff; x38]) 73 1 0 ∅) 73
    = Ok (if u >? 32767 then u - 65536 else u) ∧
    read_int32 (parse_registers 1 (with_crc [x01; x03; x02; xff; x38]) 73 1 0 ∅) 73 = Ok u.
Proof.
  apply (decode_parsed_register (with_crc [x01; x03; x02; xff; x38]) 73 73 73);
    [vm_compute; reflexivity | lia].
Defined.

(** X7: an address outside [first_reg .. last_reg] is not in the register
    map of an accepted frame, and each of the four readers raises
    [KeyError] on it. *)
Theorem decode_unread_register (frame : bytes) (first_reg last_reg a : Z)
    (registers : gmap Z bytes) :
  parse_modbus_read_holding_registers_response frame first_reg last_reg = Ok registers →
  a < first_reg ∨ last_reg < a →
  read_unit16 registers a = Raise KeyError ∧
  read_unit32 registers a = Raise KeyError ∧
  read_int16 registers a = Raise KeyError ∧
  read_int32 registers a = Raise KeyError.
Proof.
  intros Hparse Ha. pose proof (parsed_missing _ _ _ _ _ Hparse Ha) as Hnone.
  unfold read_int32, read_unit32, read_unit16, read_int16, getitem.
  rewrite Hnone. auto.
Qed.

Lemma decode_unread_register_witness :
  read_unit16 (parse_registers 1 (with_crc [x01; x03; x02; xff; x38]) 73 1 0 ∅) 74
  = Raise KeyError.
Proof.
  assert (parse_modbus_read_holding_registers_response
            (with_crc [x01; x03; x02; xff; x38]) 73 73
          = Ok (parse_registers 1 (with_crc [x01; x03; x02; xff; x38]) 73 1 0 ∅))
    as H by (vm_compute; reflexivity).
  exact (proj1 (decode_unread_register _ 73 73 74 _ H ltac:(lia))).
Defined.

(** X8: whatever the register map and the length of its entries, a reader
    either raises [KeyError], exactly when the address is missing, or
    returns a value within the range of its type. *)
Theorem reader_ranges (response : gmap Z bytes) (address : Z) :
  (response !! address = None ∧
   read_unit16 response address = Raise KeyError ∧
   read_unit32 response address = Raise KeyError ∧
   read_int16 response address = Raise KeyError ∧
   read_int32 response address = Raise KeyError)
  ∨ (∃ u16 u32 i16 i32,
       is_Some (response !! address) ∧
       read_unit16 response address = Ok u16 ∧ 0 <= u16 <= 65535 ∧
       read_unit32 response address = Ok u32 ∧ 0 <= u32 <= 4294967295 ∧
       read_int16 response address = Ok i16 ∧ -32768 <= i16 <= 32767 ∧
       read_int32 response address = Ok i32 ∧ -2147483648 <= i32 <= 2147483647).
Proof.
  unfold read_int32, read_unit32, read_unit16, read_int16, getitem.
  destruct (response !! address) as [v|]; [right | left; auto].
  rewrite !bind_Ok, land_ffff, land_ffffffff.
  pose proof (Z.mod_pos_bound (from_bytes_big v) 65536 ltac:(lia)).
  pose proof (Z.mod_pos_bound (from_bytes_big v) 4294967296 ltac:(lia)).
  do 4 eexists. split; [eauto|].
  repeat (split; [reflexivity || lia|]).
  split; [destruct (Z.gtb_spec (from_bytes_big v mod 65536) 32767); lia|].
  split; [reflexivity|].
  destruct (Z.gtb_spec (from_bytes_big v mod 4294967296) 2147483647); lia.
Qed.

(** ** The traffic of a session *)

Lemma traffic_refl (w : world) : traffic [] 0 w w.
Proof.
  unfold traffic. rewrite app_nil_r. simpl. rewrite !drop_0. repeat split.
Qed.

Lemma traffic_trans (s1 s2 : list bytes) (r1 r2 : nat) (w1 w2 w3 : world) :
  traffic s1 r1 w1 w2 → traffic s2 r2 w2 w3 → traffic (s1 ++ s2) (r1 + r2) w1 w3.
Proof.
  intros (Ha1 & Ha2 & Ha3 & Ha4 & Ha5 & Ha6) (Hb1 & Hb2 & Hb3 & Hb4 & Hb5 & Hb6).
  unfold traffic. rewrite Hb1, Hb2, Hb3, Hb4, Hb5, Hb6, Ha1, Ha2, Ha3, Ha4, Ha5, Ha6.
  rewrite length_app, !drop_drop, app_assoc. repeat split.
Qed.

Lemma traffic_sendto (cmd : bytes) (w : world) : traffic [cmd] 0 w (sendto cmd w).2.
Proof.
  unfold traffic, sendto.
  destruct (sendto_script w) as [|[e|] ?]; simpl; rewrite ?drop_0; repeat split.
Qed.

Lemma traffic_recv (w : world) : traffic [] 1 w (recv w).2.
Proof.
  unfold traffic, recv.
  destruct (recv_script w) as [|[d|e] ?]; simpl; rewrite ?app_nil_r, ?drop_0;
    repeat split.
Qed.

Lemma traffic_world_eq (w w' : world) :
  traffic [] 0 w w' → modbus_response w' = modbus_response w → w' = w.
Proof.
  intros (H1 & H2 & H3 & H4 & H5 & H6) H7.
  rewrite app_nil_r in H4. change (length (@nil bytes)) with 0%nat in H5.
  rewrite drop_0 in H5. rewrite drop_0 in H6.
  destruct w, w'; simpl in *. congruence.
Qed.

(** ** Receiving a response *)

Lemma quiet_event_recv (ev : recv_event) (script : list recv_event) (attempts : nat)
    (w : world) :
  recv_script w = ev :: script → quiet_event ev = true →
  receive_at_response_loop (S attempts) w = receive_at_response_loop attempts (recv w).2 ∧
  recv_script (recv w).2 = script.
Proof.
  intros Hscript Hquiet. cbn [receive_at_response_loop]. unfold recv. rewrite Hscript.
  destruct ev as [[|? ?]|[]]; try discriminate; split; reflexivity.
Qed.

(** Quiet receives are skipped, one attempt each. *)
Lemma receive_loop_skip (skipped rest : list recv_event) (attempts : nat) (w : world) :
  Forall (fun ev => quiet_event ev = true) skipped →
  recv_script w = skipped ++ rest →
  ∃ w', receive_at_response_loop (length skipped + attempts) w
        = receive_at_response_loop attempts w' ∧
        recv_script w' = rest ∧ sendto_calls w' = sendto_calls w ∧
        traffic [] (length skipped) w w'.
Proof.
  intros Hquiet. revert w. induction Hquiet as [|ev skipped Hev _ IH]; intros w Hscript.
  - exists w. repeat split; try assumption; try reflexivity; apply traffic_refl.
  - destruct (quiet_event_recv ev (skipped ++ rest) (length skipped + attempts) w
                Hscript Hev) as [Hloop Hrest].
    destruct (IH _ Hrest) as (w' & Hloop' & Hrest' & Hcalls & Htraffic).
    exists w'. cbn [length Nat.add]. rewrite Hloop, Hloop'.
    pose proof (traffic_recv w) as Hrecv.
    split; [reflexivity|]. split; [exact Hrest'|].
    split; [rewrite Hcalls; destruct Hrecv as (_ & _ & _ & -> & _); apply app_nil_r|].
    apply (traffic_trans [] [] 1 (length skipped) _ _ _ Hrecv Htraffic).
Qed.

(** X9: [__receive_at_response] returns the first non-empty datagram when
    fewer than five receives before it brought nothing (timeout or empty
    datagram); the events after it stay for the next receive, and nothing
    is sent. *)
Theorem receive_returns_first_datagram (w : world) (skipped rest : list recv_event)
    (data : bytes) :
  recv_script w = skipped ++ RecvData data :: rest →
  Forall (fun ev => quiet_event ev = true) skipped →
  (length skipped < 5)%nat →
  data ≠ [] →
  ∃ w', receive_at_response w = (Ok (Some data), w') ∧
        recv_script w' = rest ∧ sendto_calls w' = sendto_calls w.
Proof.
  intros Hscript Hquiet Hlen Hdata.
  remember (5 - length skipped)%nat as left eqn:Hleft.
  destruct (receive_loop_skip skipped (RecvData data :: rest) left w
              Hquiet Hscript) as (w1 & Hloop & Hrest & Hcalls & _).
  unfold receive_at_response.
  replace 5%nat with (length skipped + left)%nat by lia.
  rewrite Hloop.
  destruct left as [|attempts]; [lia|].
  cbn [receive_at_response_loop].
  pose proof (traffic_recv w1) as (_ & _ & _ & Hc & _ & Hr).
  unfold recv in *. rewrite Hrest in *. simpl in Hc, Hr |- *.
  destruct data as [|b data]; [congruence|].
  eexists. split; [reflexivity|]. simpl.
  split; [reflexivity | exact Hcalls].
Qed.

Lemma receive_returns_first_datagram_witness :
  ∃ w', receive_at_response
          (world_receiving [RecvRaise SocketTimeout; RecvData []; RecvData (blit "+ok=01");
                            RecvData (blit "late")])
        = (Ok (Some (blit "+ok=01")), w') ∧
        recv_script w' = [RecvData (blit "late")] ∧
        sendto_calls w'
        = sendto_calls (world_receiving [RecvRaise SocketTimeout; RecvData [];
                                         RecvData (blit "+ok=01"); RecvData (blit "late")]).
Proof.
  apply (receive_returns_first_datagram
           (world_receiving [RecvRaise SocketTimeout; RecvData []; RecvData (blit "+ok=01");
                             RecvData (blit "late")])
           [RecvRaise SocketTimeout; RecvData []]
           [RecvData (blit "late")] (blit "+ok=01"));
    [reflexivity | repeat constructor | simpl; lia | discriminate].
Defined.

Lemma receive_loop_all_quiet (attempts : nat) (w : world) :
  Forall (fun ev => quiet_event ev = true) (take attempts (recv_script w)) →
  ∃ w', receive_at_response_loop attempts w = (Ok None, w') ∧
        recv_script w' = drop attempts (recv_script w) ∧
        sendto_calls w' = sendto_calls w.
Proof.
  revert w. induction attempts as [|attempts IH]; intros w Hquiet.
  - exists w. repeat split.
  - destruct (recv_script w) as [|ev script] eqn:Hscript.
    + assert (receive_at_response_loop (S attempts) w
              = receive_at_response_loop attempts (recv w).2
              ∧ recv_script (recv w).2 = [] ∧ sendto_calls (recv w).2 = sendto_calls w)
        as (Hl & Hr & Hc)
        by (cbn [receive_at_response_loop]; unfold recv; rewrite Hscript; repeat split).
      destruct (IH (recv w).2) as (w' & Hloop & Hrest & Hcalls);
        [rewrite Hr, take_nil; constructor|].
      exists w'. rewrite Hl, Hrest, Hr, Hcalls, Hc, !drop_nil. repeat split. exact Hloop.
    + simpl in Hquiet. inversion Hquiet as [|? ? Hev Hrest']; subst.
      destruct (quiet_event_recv ev script attempts w Hscript Hev) as [Hloop Hrest].
      destruct (IH (recv w).2) as (w' & Hloop' & Hdrop & Hcalls).
      { rewrite Hrest. exact Hrest'. }
      exists w'. rewrite Hloop, Hloop'. split; [reflexivity|].
      rewrite Hdrop, Hrest. split; [reflexivity|].
      rewrite Hcalls. pose proof (traffic_recv w) as (_ & _ & _ & -> & _).
      apply app_nil_r.
Qed.

(** X10: when the next five receives bring nothing (timeouts, empty
    datagrams, or no event at all), [__receive_at_response] gives up: it
    returns [None] after exactly five attempts and raises nothing. *)
Theorem receive_gives_up_after_five (w : world) :
  Forall (fun ev => quiet_event ev = true) (take 5 (recv_script w)) →
  ∃ w', receive_at_response w = (Ok None, w') ∧
        recv_script w' = drop 5 (recv_script w) ∧
        sendto_calls w' = sendto_calls w.
Proof. apply receive_loop_all_quiet. Qed.

Lemma receive_gives_up_after_five_witness :
  ∃ w', receive_at_response
          (world_receiving [RecvRaise SocketTimeout; RecvData []; RecvRaise SocketTimeout;
                            RecvRaise SocketTimeout; RecvData []; RecvData (blit "+ok=01")])
        = (Ok None, w') ∧
        recv_script w'
        = drop 5 (recv_script
                    (world_receiving [RecvRaise SocketTimeout; RecvData [];
                                      RecvRaise SocketTimeout; RecvRaise SocketTimeout;
                                      RecvData []; RecvData (blit "+ok=01")])) ∧
        sendto_calls w'
        = sendto_calls (world_receiving [RecvRaise SocketTimeout; RecvData [];
                                         RecvRaise SocketTimeout; RecvRaise SocketTimeout;
                                         RecvData []; RecvData (blit "+ok=01")]).
Proof.
  apply (receive_gives_up_after_five
           (world_receiving [RecvRaise SocketTimeout; RecvData []; RecvRaise SocketTimeout;
                             RecvRaise SocketTimeout; RecvData []; RecvData (blit "+ok=01")])).
  repeat constructor.
Defined.

(** X11: a receive that raises anything but a timeout ends the attempts at
    once, before the five are used up: an [OSError] comes out as
    [AttributeError], raised by the handler itself, and any other exception
    is swallowed and gives [None]. *)
Theorem receive_stops_at_error (w : world) (skipped rest : list recv_event) (e : exn) :
  recv_script w = skipped ++ RecvRaise e :: rest →
  Forall (fun ev => quiet_event ev = true) skipped →
  (length skipped < 5)%nat →
  e ≠ SocketTimeout →
  ∃ w', receive_at_response w
        = (match e with OSError => Raise AttributeError | _ => Ok None end, w') ∧
        recv_script w' = rest.
Proof.
  intros Hscript Hquiet Hlen He.
  remember (5 - length skipped)%nat as left eqn:Hleft.
  destruct (receive_loop_skip skipped (RecvRaise e :: rest) left w
              Hquiet Hscript) as (w1 & Hloop & Hrest & _).
  unfold receive_at_response.
  replace 5%nat with (length skipped + left)%nat by lia.
  rewrite Hloop.
  destruct left as [|attempts]; [lia|].
  cbn [receive_at_response_loop]. unfold recv. rewrite Hrest.
  destruct e; try congruence; eexists; split; reflexivity.
Qed.

Lemma receive_stops_at_error_witness :
  ∃ w', receive_at_response
          (world_receiving [RecvRaise SocketTimeout; RecvRaise OSError;
                            RecvData (blit "+ok=01")])
        = (Raise AttributeError, w') ∧
        recv_script w' = [RecvData (blit "+ok=01")].
Proof.
  apply (receive_stops_at_error
           (world_receiving [RecvRaise SocketTimeout; RecvRaise OSError;
                             RecvData (blit "+ok=01")])
           [RecvRaise SocketTimeout] [RecvData (blit "+ok=01")] OSError);
    [reflexivity | repeat constructor | simpl; lia | discriminate].
Defined.

(** ** The commands of a session *)

Lemma traffic_receive_loop (attempts : nat) (w : world) :
  ∃ k, (k <= attempts)%nat ∧ traffic [] k w (receive_at_response_loop attempts w).2.
Proof.
  revert w. induction attempts as [|attempts IH]; intros w.
  - exists 0%nat. split; [lia | apply traffic_refl].
  - cbn [receive_at_response_loop]. pose proof (traffic_recv w) as Hrecv.
    destruct (recv w) as [[[|b data]|e] w1]; cbn [snd] in *.
    + destruct (IH w1) as (k & Hk & Hloop). exists (1 + k)%nat. split; [lia|].
      apply (traffic_trans [] [] _ _ _ _ _ Hrecv Hloop).
    + exists 1%nat. split; [lia | exact Hrecv].
    + destruct e; try (exists 1%nat; split; [lia | exact Hrecv]).
      destruct (IH w1) as (k & Hk & Hloop). exists (1 + k)%nat. split; [lia|].
      apply (traffic_trans [] [] _ _ _ _ _ Hrecv Hloop).
Qed.

Lemma traffic_receive (w : world) :
  ∃ k, (k <= 5)%nat ∧ traffic [] k w (receive_at_response w).2.
Proof. apply traffic_receive_loop. Qed.

Ltac session_step :=
  match goal with
  | |- context [sendto ?c ?w] =>
      let T := fresh "T" in
      pose proof (traffic_sendto c w) as T;
      destruct (sendto c w) as [[[]|?] ?]; cbn [fst snd] in *
  | |- context [receive_at_response ?w] =>
      let T := fresh "T" in
      let k := fresh "k" in
      let Hk := fresh "Hk" in
      destruct (traffic_receive w) as (k & Hk & T);
      destruct (receive_at_response w) as [[?|?] ?]; cbn [fst snd] in *
  end.

Ltac chain_traffic :=
  repeat match goal with
         | H1 : traffic _ _ ?a ?b, H2 : traffic _ _ ?b ?c |- _ =>
             pose proof (traffic_trans _ _ _ _ _ _ _ H1 H2); clear H1 H2
         end.

(** Up to the receive of the response, the commands sent are the first
    one, two or three commands of the protocol, in order, and at most ten
    receives are made; when nothing is raised all three were sent. *)
Lemma session_until_response_traffic (req_frame : bytes) (w : world) :
  ∃ (n k : nat),
    traffic (take n (session_commands req_frame)) k w
      (session_until_response req_frame w).2 ∧
    (1 <= n <= 3)%nat ∧ (k <= 10)%nat ∧
    (∀ r, (session_until_response req_frame w).1 = Ok r → n = 3%nat).
Proof.
  unfold session_until_response, authenticate, send_at_command, lift.
  rewrite invdata_command_ok.
  unfold mbind, M_bind, mret, M_ret.
  repeat session_step; chain_traffic;
    first [ exists 3%nat; eexists; split; [eassumption|];
            split; [lia|]; split; [lia|]; intros; reflexivity
          | exists 2%nat; eexists; split; [eassumption|];
            split; [lia|]; split; [lia|]; intros; discriminate
          | exists 1%nat; eexists; split; [eassumption|];
            split; [lia|]; split; [lia|]; intros; discriminate ].
Qed.

Lemma traffic_assign (v : option bytes) (w : world) :
  traffic [] 0 w (assign_modbus_response v w).
Proof.
  unfold traffic, assign_modbus_response. simpl. rewrite app_nil_r, !drop_0. repeat split.
Qed.

(** After the response, at most the quit command is sent and nothing is
    received. *)
Lemma handle_response_traffic (at_response : option bytes) (w : world) :
  traffic [] 0 w (handle_response at_response w).2
  ∨ traffic [quit_command] 0 w (handle_response at_response w).2.
Proof.
  unfold handle_response.
  destruct (is_falsy at_response || startswith (default [] at_response) (blit "+ok=no data"));
    [left; apply traffic_refl|].
  destruct (startswith (default [] at_response) (blit "+ERR="));
    [left; apply traffic_refl|].
  unfold deauthenticate, send_at_command, lift, set_modbus_response.
  unfold mbind, M_bind, mret, M_ret.
  destruct (startswith (default [] at_response) (blit "+ok=")).
  - destruct (extract_modbus_respose (default [] at_response)) as [v|e];
      [|left; apply traffic_refl].
    right. pose proof (traffic_assign (Some v) w) as Ha.
    pose proof (traffic_sendto quit_command (assign_modbus_response (Some v) w)) as Hs.
    destruct (sendto quit_command (assign_modbus_response (Some v) w)) as [[[]|?] ?];
      cbn [fst snd] in *; apply (traffic_trans [] _ 0 0 _ _ _ Ha Hs).
  - right. pose proof (traffic_sendto quit_command w) as Hs.
    destruct (sendto quit_command w) as [[[]|?] ?]; exact Hs.
Qed.

(** The block sends the commands of the protocol in order and stops at the
    first failure: what was sent is always a non-empty prefix of the four
    commands. *)
Lemma session_body_traffic (req_frame : bytes) (w : world) :
  ∃ (n k : nat),
    traffic (take n (session_commands req_frame)) k w (session_body req_frame w).2 ∧
    (1 <= n <= 4)%nat ∧ (k <= 10)%nat.
Proof.
  destruct (session_until_response_traffic req_frame w) as (n & k & Ht & Hn & Hk & Hok).
  unfold session_body. rewrite M_bind_unfold.
  destruct (session_until_response req_frame w) as [[r|e] w2]; cbn [fst snd] in *.
  2: { exists n, k. split; [exact Ht|]. split; lia. }
  rewrite (Hok r eq_refl) in Ht.
  destruct (handle_response_traffic r w2) as [Hh|Hh].
  - exists 3%nat, k. split; [|split; lia].
    pose proof (traffic_trans _ _ _ _ _ _ _ Ht Hh) as Hall.
    rewrite app_nil_r, Nat.add_0_r in Hall. exact Hall.
  - exists 4%nat, k. split; [|split; lia].
    pose proof (traffic_trans _ _ _ _ _ _ _ Ht Hh) as Hall.
    rewrite Nat.add_0_r in Hall. exact Hall.
Qed.

Lemma traffic_close (sent : list bytes) (k : nat) (w w' : world) :
  traffic sent k w w' →
  reachable (close w') = reachable w ∧ socket_script (close w') = socket_script w ∧
  sendto_calls (close w') = sendto_calls w ++ sent ∧
  sendto_script (close w') = drop (length sent) (sendto_script w) ∧
  recv_script (close w') = drop k (recv_script w).
Proof. intros (H1 & H2 & H3 & H4 & H5 & H6). simpl. auto. Qed.

Lemma send_request_world (req_frame : bytes) (w : world) :
  socket_opens w = true →
  (send_request req_frame w).2 = close (session_body req_frame (session_start w)).2.
Proof.
  intros Hsock. rewrite (send_request_socket _ _ Hsock).
  destruct (session_body req_frame (session_start w)) as [[[v|]|e] w2]; reflexivity.
Qed.

(** X12: once the socket is open, [send_request] sends the commands of the
    protocol in order (authentication, [+ok], [AT+INVDATA] with the
    request, quit) and stops at the first that cannot follow: the commands
    sent are a non-empty prefix of these four, each consuming one entry of
    the send script, and at most ten receives are made. *)
Theorem send_request_command_order (req_frame : bytes) (w : world) :
  socket_opens w = true →
  ∃ (n k : nat),
    (1 <= n <= 4)%nat ∧ (k <= 10)%nat ∧
    sendto_calls (send_request req_frame w).2
    = sendto_calls w ++ take n (session_commands req_frame) ∧
    sendto_script (send_request req_frame w).2 = drop n (sendto_script w) ∧
    recv_script (send_request req_frame w).2 = drop k (recv_script w).
Proof.
  intros Hsock. rewrite (send_request_world _ _ Hsock).
  destruct (session_body_traffic req_frame (session_start w)) as (n & k & Ht & Hn & Hk).
  apply traffic_close in Ht as (_ & _ & Hcalls & Hscript & Hrecv).
  exists n, k. split; [exact Hn|]. split; [exact Hk|].
  rewrite Hcalls, Hscript, Hrecv.
  rewrite length_take. unfold session_commands at 2. simpl length.
  replace (n `min` 4)%nat with n by lia. repeat split.
Qed.

Lemma send_request_command_order_witness :
  ∃ (n k : nat),
    (1 <= n <= 4)%nat ∧ (k <= 10)%nat ∧
    sendto_calls (send_request sample_request world_quit_fails).2
    = sendto_calls world_quit_fails ++ take n (session_commands sample_request) ∧
    sendto_script (send_request sample_request world_quit_fails).2
    = drop n (sendto_script world_quit_fails) ∧
    recv_script (send_request sample_request world_quit_fails).2
    = drop k (recv_script world_quit_fails).
Proof.
  apply (send_request_command_order sample_request world_quit_fails). reflexivity.
Defined.

(** X13: when the response is absent, empty, [+ok=no data] or [+ERR=...],
    [send_request] returns [None] right away: the three commands up to the
    request were sent, the quit command is not, and the socket is closed. *)
Theorem send_request_no_quit_without_data (req_frame : bytes) (w w2 : world)
    (at_response : option bytes) :
  socket_opens w = true →
  session_until_response req_frame (session_start w) = (Ok at_response, w2) →
  is_falsy at_response
  || startswith (default [] at_response) (blit "+ok=no data")
  || startswith (default [] at_response) (blit "+ERR=") = true →
  send_request req_frame w = (Ok None, close w2) ∧
  sendto_calls (close w2)
  = sendto_calls w ++ [blit "WIFIKIT-214028-READ"; blit "+ok"; invdata_bytes req_frame].
Proof.
  intros Hsock Hsession Hearly. split.
  - rewrite (send_request_socket _ _ Hsock). unfold session_body.
    rewrite M_bind_unfold, Hsession. unfold handle_response.
    destruct (is_falsy at_response
              || startswith (default [] at_response) (blit "+ok=no data")); [reflexivity|].
    simpl in Hearly. rewrite Hearly. reflexivity.
  - destruct (session_until_response_traffic req_frame (session_start w))
      as (n & k & Ht & _ & _ & Hok).
    rewrite Hsession in Ht, Hok. cbn [fst snd] in *.
    rewrite (Hok at_response eq_refl) in Ht.
    apply traffic_close in Ht as (_ & _ & Hcalls & _). exact Hcalls.
Qed.

Lemma send_request_no_quit_without_data_witness :
  send_request sample_request
    (world_receiving [RecvData (blit "+ok"); RecvData (blit "+ok=no data")])
  = (Ok None,
     close (session_until_response sample_request
              (session_start (world_receiving [RecvData (blit "+ok");
                                               RecvData (blit "+ok=no data")]))).2) ∧
  sendto_calls
    (close (session_until_response sample_request
              (session_start (world_receiving [RecvData (blit "+ok");
                                               RecvData (blit "+ok=no data")]))).2)
  = sendto_calls (world_receiving [RecvData (blit "+ok"); RecvData (blit "+ok=no data")])
    ++ [blit "WIFIKIT-214028-READ"; blit "+ok"; invdata_bytes sample_request].
Proof.
  apply (send_request_no_quit_without_data sample_request
           (world_receiving [RecvData (blit "+ok"); RecvData (blit "+ok=no data")])
           _ (Some (blit "+ok=no data")));
    [reflexivity | vm_compute; reflexivity | reflexivity].
Defined.

(** X14: after [send_request] the reachability flag tells whether the
    socket could be opened, whatever it was before, one entry of the socket
    script is consumed and the socket is closed; when the socket cannot be
    opened the result is [None] and nothing is sent or received. *)
Theorem send_request_reachability (req_frame : bytes) (w : world) :
  reachable (send_request req_frame w).2 = socket_opens w ∧
  socket_open (send_request req_frame w).2 = false ∧
  socket_script (send_request req_frame w).2 = tail (socket_script w) ∧
  (socket_opens w = false →
   (send_request req_frame w).1 = Ok None ∧
   sendto_calls (send_request req_frame w).2 = sendto_calls w ∧
   sendto_script (send_request req_frame w).2 = sendto_script w ∧
   recv_script (send_request req_frame w).2 = recv_script w).
Proof.
  destruct (socket_opens w) eqn:Hsock.
  - rewrite (send_request_world _ _ Hsock).
    destruct (session_body_traffic req_frame (session_start w)) as (n & k & Ht & _).
    apply traffic_close in Ht as (Hreach & Hscript & _).
    rewrite Hreach, Hscript. unfold session_start, create_socket. simpl.
    change (socket_opens (assign_modbus_response None w)) with (socket_opens w).
    rewrite Hsock. split; [reflexivity|]. split; [reflexivity|].
    split; [reflexivity | discriminate].
  - destruct (send_request_no_socket req_frame w Hsock) as [-> _].
    unfold session_start, create_socket. simpl.
    change (socket_opens (assign_modbus_response None w)) with (socket_opens w).
    rewrite Hsock. repeat split.
Qed.

(** ** Reading holding registers, end to end *)

(** Text with a character that is neither a hexadecimal digit nor
    whitespace does not decode. *)
Lemma fromhex_bad_char (s : pystr) :
  Exists (fun c => hex_value c = None ∧ hex_isspace c = false) s →
  fromhex s = Raise fromhex_error.
Proof.
  remember (length s) as n eqn:Hn.
  revert s Hn. induction n as [n IH] using lt_wf_ind. intros s Hn Hex.
  destruct s as [|c rest]; [inversion Hex|].
  cbn [fromhex]. destruct (hex_isspace c) eqn:Hsp.
  - apply (IH (length rest)); [simpl in Hn; lia | reflexivity |].
    inversion Hex as [? ? [_ Hc]|]; subst; [congruence | assumption].
  - destruct (hex_value c) as [top|] eqn:Hc; [|reflexivity].
    destruct rest as [|d rest']; [reflexivity|].
    destruct (hex_value d) as [bot|] eqn:Hd; [|reflexivity].
    assert (Exists (fun c => hex_value c = None ∧ hex_isspace c = false) rest') as Hrest'.
    { inversion Hex as [? ? [Hc' _]|? ? Hex']; subst; [congruence|].
      inversion Hex' as [? ? [Hd' _]|]; subst; [congruence | assumption]. }
    rewrite (IH (length rest') ltac:(simpl in Hn; lia) rest' eq_refl Hrest').
    reflexivity.
Qed.

Lemma format_04x_negative (n : Z) :
  n < 0 → Exists (fun c => hex_value c = None ∧ hex_isspace c = false) (format_04x n).
Proof.
  intros Hn. unfold format_04x. destruct (Z.ltb_spec n 0); [|lia].
  apply Exists_cons_hd. split; reflexivity.
Qed.

(** X15: a negative first register or a negative register count
    ([last_reg < first_reg - 1]) makes the construction of the request
    raise [ValueError], and [read_holding_registers] raises it before the
    connector is used: no socket is opened and nothing is sent. *)
Theorem read_holding_registers_rejects_negative (first_reg last_reg : Z) (w : world) :
  first_reg < 0 ∨ last_reg < first_reg - 1 →
  build_modbus_read_holding_registers_request_frame first_reg last_reg
  = Raise fromhex_error ∧
  read_holding_registers first_reg last_reg w = (Raise fromhex_error, w).
Proof.
  intros Hneg.
  assert (build_modbus_read_holding_registers_request_frame first_reg last_reg
          = Raise fromhex_error) as Hbuild.
  { unfold build_modbus_read_holding_registers_request_frame.
    apply fromhex_bad_char. apply Exists_app. right. apply Exists_app.
    destruct (Z.lt_ge_cases first_reg 0).
    - left. apply format_04x_negative. assumption.
    - right. apply format_04x_negative. lia. }
  split; [exact Hbuild|].
  unfold read_holding_registers, request_with_crc, lift.
  rewrite Hbuild. reflexivity.
Qed.

Lemma read_holding_registers_rejects_negative_witness :
  read_holding_registers 112 60 world_unrecognised = (Raise fromhex_error, world_unrecognised).
Proof.
  exact (proj2 (read_holding_registers_rejects_negative 112 60 world_unrecognised
                  ltac:(lia))).
Defined.

Lemma request_with_crc_ok (first_reg last_reg : Z) :
  word16 first_reg → word16 (last_reg - first_reg + 1) →
  request_with_crc first_reg last_reg
  = Ok (with_crc ([x01; x03] ++ be16 first_reg ++ be16 (last_reg - first_reg + 1))).
Proof.
  intros Hw1 Hw2. unfold request_with_crc, build_modbus_read_holding_registers_request_frame.
  rewrite (fromhex_app _ _ _ fromhex_0103).
  rewrite (fromhex_app _ _ _ (fromhex_format_04x _ Hw1)).
  rewrite (fromhex_format_04x _ Hw2), !bind_Ok.
  rewrite (fromhex_format_04x _ (libscrc_modbus_word16 _)), bind_Ok. reflexivity.
Qed.

(** X16: the empty range [last_reg = first_reg - 1] is not rejected: the
    request is built with a register count of zero, and a response that is
    valid for it (three bytes and their CRC) parses to the empty register
    map. *)
Theorem empty_range_is_accepted (first_reg : Z) (data : bytes) :
  0 <= first_reg <= 0xFFFF →
  length data = 3%nat →
  request_with_crc first_reg (first_reg - 1)
  = Ok (with_crc ([x01; x03] ++ be16 first_reg ++ [x00; x00])) ∧
  parse_modbus_read_holding_registers_response (with_crc data) first_reg (first_reg - 1)
  = Ok ∅.
Proof.
  intros Hfirst Hlen. split.
  - rewrite request_with_crc_ok by (unfold word16; lia).
    replace (first_reg - 1 - first_reg + 1) with 0 by lia. reflexivity.
  - unfold with_crc. rewrite parse_payload_and_crc by (try apply length_le16; lia).
    rewrite from_bytes_little_le16 by apply libscrc_modbus_word16.
    rewrite Z.eqb_refl. replace (first_reg - 1 - first_reg + 1) with 0 by lia.
    reflexivity.
Qed.

Lemma empty_range_is_accepted_witness :
  request_with_crc 60 (60 - 1) = Ok (with_crc ([x01; x03] ++ be16 60 ++ [x00; x00])) ∧
  parse_modbus_read_holding_registers_response (with_crc [x01; x03; x00]) 60 (60 - 1) = Ok ∅.
Proof.
  apply (empty_range_is_accepted 60 [x01; x03; x00]); [lia | reflexivity].
Defined.

Lemma startswith_ok_not_err (r : bytes) :
  startswith r (blit "+ok=") = true → startswith r (blit "+ERR=") = false.
Proof.
  change (blit "+ok=") with ["+"%byte; "o"%byte; "k"%byte; "="%byte].
  change (blit "+ERR=") with ["+"%byte; "E"%byte; "R"%byte; "R"%byte; "="%byte].
  destruct r as [|b1 [|b2 r]]; cbn [startswith]; intros H; try discriminate;
    apply andb_prop in H as [_ H]; [discriminate|].
  apply andb_prop in H as [H _].
  apply Byte.byte_dec_bl in H. subst b2.
  destruct (Byte.eqb "+" b1); reflexivity.
Qed.

(** The result of [send_request] when a [+ok=] response is received and
    the frame it carries can be extracted. *)
Lemma send_request_extracted (req_frame r frame : bytes) (w w2 : world) :
  socket_opens w = true →
  session_until_response req_frame (session_start w) = (Ok (Some r), w2) →
  startswith r (blit "+ok=no data") = false →
  startswith r (blit "+ok=") = true →
  extract_modbus_respose r = Ok frame →
  ∃ w', send_request req_frame w = (Ok (Some frame), w') ∧ socket_open w' = false.
Proof.
  intros Hsock Hsession Hnodata Hok Hextract.
  rewrite (send_request_socket _ _ Hsock). unfold session_body.
  rewrite M_bind_unfold, Hsession.
  rewrite (handle_response_ok _ _ Hnodata (startswith_ok_not_err _ Hok) Hok), Hextract.
  cbv zeta.
  pose proof (deauthenticate_calls (assign_modbus_response (Some frame) w2)) as [_ Hresp].
  destruct (deauthenticate (assign_modbus_response (Some frame) w2)) as [[[]|e] w3];
    cbn [fst snd] in *; rewrite Hresp; eexists; split; reflexivity.
Qed.

Lemma hex_digit_byte_not_n (d : Z) :
  0 <= d < 16 → Byte.eqb "n" (byte_of_Z (Z.of_N (hex_digit d))) = false.
Proof.
  intros Hd.
  assert (d = 0 ∨ d = 1 ∨ d = 2 ∨ d = 3 ∨ d = 4 ∨ d = 5 ∨ d = 6 ∨ d = 7 ∨ d = 8
          ∨ d = 9 ∨ d = 10 ∨ d = 11 ∨ d = 12 ∨ d = 13 ∨ d = 14 ∨ d = 15) as Hcases by lia.
  repeat (destruct Hcases as [->|Hcases]); try subst d; reflexivity.
Qed.

Lemma at_reply_startswith (frame trailer : bytes) :
  frame ≠ [] →
  startswith (at_reply frame trailer) (blit "+ok=") = true ∧
  startswith (at_reply frame trailer) (blit "+ok=no data") = false.
Proof.
  intros Hne. destruct frame as [|b frame]; [congruence|].
  split; [reflexivity|].
  destruct (byte_nibbles b) as (Hhi & _).
  unfold at_reply.
  change (bytes_hex (b :: frame))
    with (hex_digit (byte_to_Z b / 16) :: hex_digit (byte_to_Z b mod 16) :: bytes_hex frame).
  change (blit "+ok=" ++ text_bytes (hex_digit (byte_to_Z b / 16)
            :: hex_digit (byte_to_Z b mod 16) :: bytes_hex frame) ++ trailer)
    with ("+"%byte :: "o"%byte :: "k"%byte :: "="%byte
          :: byte_of_Z (Z.of_N (hex_digit (byte_to_Z b / 16)))
          :: (text_bytes (hex_digit (byte_to_Z b mod 16) :: bytes_hex frame) ++ trailer)).
  change (blit "+ok=no data")
    with ("+"%byte :: "o"%byte :: "k"%byte :: "="%byte :: "n"%byte :: blit "o data").
  cbn [startswith]. rewrite (hex_digit_byte_not_n _ Hhi). reflexivity.
Qed.

Lemma with_crc_no_zero_word (data : bytes) :
  libscrc_modbus data ≠ 0 → ¬ (∃ f, f ≠ [] ∧ with_crc data = f ++ [x00; x00]).
Proof.
  intros Hcrc (f & _ & Heq). unfold with_crc in Heq.
  apply app_inj_2 in Heq as [_ Heq]; [|reflexivity].
  pose proof (libscrc_modbus_word16 data) as Hw.
  apply (f_equal from_bytes_little) in Heq.
  rewrite from_bytes_little_le16 in Heq by exact Hw.
  apply Hcrc. rewrite Heq. reflexivity.
Qed.

Lemma filter_all {A} (P : A → Prop) `{∀ x, Decision (P x)} (l : list A) :
  Forall P l → filter P l = l.
Proof.
  induction 1 as [|x l Hx _ IH]; [reflexivity|].
  rewrite filter_cons_True by exact Hx. rewrite IH. reflexivity.
Qed.

Lemma text_bytes_no_padding (s : pystr) :
  Forall (fun c => (48 <= c < 128)%N) s → Forall (fun b => b ≠ x10) (text_bytes s).
Proof.
  induction 1 as [|c s Hc _ IH]; [constructor|].
  constructor; [|exact IH].
  intros Hb. apply (f_equal byte_to_Z) in Hb. rewrite byte_to_of_Z in Hb.
  rewrite Z.mod_small in Hb by lia. change (byte_to_Z x10) with 16 in Hb. lia.
Qed.

(** A reply without padding is left as it is by the removal of the 0x10
    bytes. *)
Lemma at_reply_no_padding (frame trailer : bytes) :
  Forall (fun b => b ≠ x10) trailer →
  filter (fun b => b ≠ x10) (at_reply frame trailer) = at_reply frame trailer.
Proof.
  intros Htrailer. apply filter_all. unfold at_reply.
  repeat apply Forall_app_2; [| apply text_bytes_no_padding, bytes_hex_ascii | exact Htrailer].
  repeat constructor; discriminate.
Qed.

Lemma extract_valid_reply (data trailer : bytes) :
  libscrc_modbus data ≠ 0 → length trailer = 4%nat →
  Forall (fun b => b ≠ x10) trailer →
  extract_modbus_respose (at_reply (with_crc data) trailer) = Ok (with_crc data).
Proof.
  intros Hcrc Hlen Htrailer.
  rewrite (extract_at_reply _ (with_crc data) trailer (at_reply_no_padding _ _ Htrailer) Hlen).
  case_decide as Hd;
    [exfalso; apply (with_crc_no_zero_word data Hcrc), bytes_hex_zero_suffix, Hd|].
  apply fromhex_bytes_hex.
Qed.

(** X17: end to end.  For a range [0 <= first_reg <= last_reg <= 0xFFFF]
    of at most 0xFFFF registers: when the socket opens and the device
    answers the request with [+ok=], the hexadecimal text of a valid
    response (payload of the expected length and its CRC, the CRC not being
    zero) and four trailer bytes other than 0x10, [read_holding_registers]
    returns the register map of that response, with one entry per
    register, and the socket is closed. *)
Theorem read_holding_registers_round_trip (first_reg last_reg : Z) (data trailer : bytes)
    (w w2 : world) :
  0 <= first_reg <= last_reg → last_reg <= 0xFFFF →
  last_reg - first_reg + 1 <= 0xFFFF →
  Z.of_nat (length data) = 3 + 2 * (last_reg - first_reg + 1) →
  libscrc_modbus data ≠ 0 →
  length trailer = 4%nat →
  Forall (fun b => b ≠ x10) trailer →
  socket_opens w = true →
  session_until_response
    (with_crc ([x01; x03] ++ be16 first_reg ++ be16 (last_reg - first_reg + 1)))
    (session_start w)
  = (Ok (Some (at_reply (with_crc data) trailer)), w2) →
  ∃ (registers : gmap Z bytes) (w' : world),
    read_holding_registers first_reg last_reg w = (Ok (Some registers), w') ∧
    parse_modbus_read_holding_registers_response (with_crc data) first_reg last_reg
    = Ok registers ∧
    Z.of_nat (size registers) = last_reg - first_reg + 1 ∧
    socket_open w' = false.
Proof.
  intros Hfirst Hlast Hcount Hlen Hcrc Htrailer Hpad Hsock Hsession.
  assert (with_crc data ≠ []) as Hne
    by (unfold with_crc; destruct data; discriminate).
  destruct (at_reply_startswith (with_crc data) trailer Hne) as [Hok Hnodata].
  destruct (send_request_extracted _ _ _ _ _ Hsock Hsession Hnodata Hok
              (extract_valid_reply _ _ Hcrc Htrailer Hpad)) as (w' & Hsend & Hclosed).
  set (reg_count := last_reg - first_reg + 1) in *.
  assert (parse_modbus_read_holding_registers_response (with_crc data) first_reg last_reg
          = Ok (parse_registers (Z.to_nat reg_count) (with_crc data) first_reg reg_count 0 ∅))
    as Hparse.
  { unfold with_crc. rewrite parse_payload_and_crc by (try apply length_le16; lia).
    rewrite from_bytes_little_le16 by apply libscrc_modbus_word16.
    rewrite Z.eqb_refl. reflexivity. }
  exists (parse_registers (Z.to_nat reg_count) (with_crc data) first_reg reg_count 0 ∅), w'.
  split.
  { unfold read_holding_registers, lift.
    rewrite request_with_crc_ok by (unfold word16; lia).
    rewrite !M_bind_unfold. fold reg_count. rewrite Hsend. rewrite M_bind_unfold.
    rewrite Hparse. reflexivity. }
  split; [exact Hparse|]. split; [|exact Hclosed].
  rewrite parse_registers_size; [rewrite map_size_empty; lia | f_equal; lia |].
  intros k _. apply lookup_empty.
Qed.

Lemma read_holding_registers_round_trip_witness :
  ∃ (registers : gmap Z bytes) (w' : world),
    read_holding_registers 73 73 world_answering = (Ok (Some registers), w') ∧
    parse_modbus_read_holding_registers_response (with_crc sample_payload) 73 73
    = Ok registers ∧
    Z.of_nat (size registers) = 73 - 73 + 1 ∧
    socket_open w' = false.
Proof.
  apply (read_holding_registers_round_trip 73 73 sample_payload [x0d; x0a; x0d; x0a]
           world_answering
           (session_until_response
              (with_crc ([x01; x03] ++ be16 73 ++ be16 (73 - 73 + 1)))
              (session_start world_answering)).2);
    [lia | lia | lia | reflexivity | vm_compute; discriminate | reflexivity
    | repeat constructor; discriminate | reflexivity | vm_compute; reflexivity].
Defined.

(** X18: an error of the parser is not turned into [None]: when the
    transport delivers a frame, [read_holding_registers] raises whatever
    the parser raises on it (frame too short, CRC not valid), after the
    session has been closed. *)
Theorem read_holding_registers_raises_parse_error (first_reg last_reg : Z)
    (r frame : bytes) (e : exn) (w w2 : world) :
  0 <= first_reg <= 0xFFFF → 0 <= last_reg - first_reg + 1 <= 0xFFFF →
  socket_opens w = true →
  session_until_response
    (with_crc ([x01; x03] ++ be16 first_reg ++ be16 (last_reg - first_reg + 1)))
    (session_start w)
  = (Ok (Some r), w2) →
  startswith r (blit "+ok=no data") = false →
  startswith r (blit "+ok=") = true →
  extract_modbus_respose r = Ok frame →
  parse_modbus_read_holding_registers_response frame first_reg last_reg = Raise e →
  (read_holding_registers first_reg last_reg w).1 = Raise e ∧
  socket_open (read_holding_registers first_reg last_reg w).2 = false.
Proof.
  intros Hfirst Hcount Hsock Hsession Hnodata Hok Hextract Hparse.
  destruct (send_request_extracted _ _ _ _ _ Hsock Hsession Hnodata Hok Hextract)
    as (w' & Hsend & Hclosed).
  unfold read_holding_registers, lift.
  rewrite request_with_crc_ok by (unfold word16; lia).
  rewrite !M_bind_unfold, Hsend, M_bind_unfold, Hparse.
  split; [reflexivity | exact Hclosed].
Qed.

Lemma read_holding_registers_raises_parse_error_witness :
  (read_holding_registers 73 73 world_truncated).1 = Raise frame_too_short ∧
  socket_open (read_holding_registers 73 73 world_truncated).2 = false.
Proof.
  apply (read_holding_registers_raises_parse_error 73 73
           (at_reply (take 4 (with_crc sample_payload)) [x0d; x0a; x0d; x0a])
           (take 4 (with_crc sample_payload)) frame_too_short world_truncated
           (session_until_response
              (with_crc ([x01; x03] ++ be16 73 ++ be16 (73 - 73 + 1)))
              (session_start world_truncated)).2);
    [lia | lia | reflexivity | vm_compute; reflexivity | reflexivity | reflexivity
    | vm_compute; reflexivity | vm_compute; reflexivity].
Defined.

(** ** Telemetry fields *)

Lemma parsed_readers_ok (frame : bytes) (first_reg last_reg a : Z) (registers : gmap Z bytes) :
  parse_modbus_read_holding_registers_response frame first_reg last_reg = Ok registers →
  first_reg <= a <= last_reg →
  ∃ u, 0 <= u < 65536 ∧
       read_unit16 registers a = Ok u ∧ read_unit32 registers a = Ok u ∧
       read_int16 registers a = Ok (if u >? 32767 then u - 65536 else u) ∧
       read_int32 registers a = Ok u.
Proof.
  intros Hparse Ha.
  destruct (parsed_entry _ _ _ _ _ Hparse Ha) as (b0 & b1 & _ & _ & Hreg).
  pose proof (byte_to_Z_range b0). pose proof (byte_to_Z_range b1).
  exists (byte_to_Z b0 * 256 + byte_to_Z b1). split; [lia|].
  assert (Z.land (from_bytes_big [b0; b1]) 0xffff = byte_to_Z b0 * 256 + byte_to_Z b1) as H16
    by (rewrite land_ffff, from_bytes_big_two; apply Z.mod_small; lia).
  assert (Z.land (from_bytes_big [b0; b1]) 0xffffffff = byte_to_Z b0 * 256 + byte_to_Z b1)
    as H32 by (rewrite land_ffffffff, from_bytes_big_two; apply Z.mod_small; lia).
  unfold read_int32, read_unit32, read_unit16, read_int16, getitem.
  rewrite Hreg, !bind_Ok, H16, H32.
  destruct (Z.gtb_spec (byte_to_Z b0 * 256 + byte_to_Z b1) 2147483647); [lia|]. auto.
Qed.

Lemma parsed_readers_missing (frame : bytes) (first_reg last_reg a : Z)
    (registers : gmap Z bytes) :
  parse_modbus_read_holding_registers_response frame first_reg last_reg = Ok registers →
  ¬ (first_reg <= a <= last_reg) →
  read_unit16 registers a = Raise KeyError ∧ read_unit32 registers a = Raise KeyError ∧
  read_int16 registers a = Raise KeyError ∧ read_int32 registers a = Raise KeyError.
Proof.
  intros Hparse Ha.
  assert (a < first_reg ∨ last_reg < a) as Hout by lia.
  pose proof (parsed_missing _ _ _ _ _ Hparse Hout) as Hnone.
  unfold read_int32, read_unit32, read_unit16, read_int16, getitem.
  rewrite Hnone. auto.
Qed.

(** One register of [get_fields_from_response]: in the range that was read
    its readers return, and the product with the scale exists; outside,
    the readers raise [KeyError], which ends the function. *)
Ltac field_step Hparse Hmul a :=
  let u := fresh "u" in
  let Hu := fresh "Hu" in
  let H16 := fresh "H16" in
  let H32 := fresh "H32" in
  let Hi16 := fresh "Hi16" in
  let Hi32 := fresh "Hi32" in
  let Hin := fresh "Hin" in
  match type of Hparse with
  | parse_modbus_read_holding_registers_response _ ?first ?last = _ =>
      destruct (decide (first <= a <= last)) as [Hin|Hin];
      [ destruct (parsed_readers_ok _ _ _ a _ Hparse Hin) as (u & Hu & H16 & H32 & Hi16 & Hi32);
        rewrite ?H16, ?H32, ?Hi16, ?Hi32, ?bind_Ok;
        repeat match goal with
               | |- context [?mul ?n (?flit ?s) ≫= _] =>
                   let x := fresh "x" in
                   let Hx := fresh "Hx" in
                   destruct (Hmul n (flit s)) as [x Hx];
                   [ try (destruct (Z.gtb_spec u 32767)); lia
                   | rewrite Hx, !bind_Ok ]
               end
      | destruct (parsed_readers_missing _ _ _ a _ Hparse Hin) as (H16 & H32 & Hi16 & Hi32);
        rewrite ?H16, ?H32, ?Hi16, ?Hi32 ]
  end.

Lemma get_fields_parsed {pyfloat : Type} (float_literal : string → pyfloat)
    (int_times_float : Z → pyfloat → result pyfloat)
    (frame : bytes) (first_reg last_reg : Z) (registers : gmap Z bytes) :
  (∀ n f, -2147483648 <= n <= 4294967295 → ∃ x, int_times_float n f = Ok x) →
  parse_modbus_read_holding_registers_response frame first_reg last_reg = Ok registers →
  (first_reg <= 60 ∧ 112 <= last_reg →
   ∃ fields u x,
     get_fields_from_response pyfloat float_literal int_times_float registers = Ok fields ∧
     dom fields = list_to_set field_names ∧
     read_unit16 registers 60 = Ok u ∧ fields !! lit "uptime" = Some (NInt u) ∧
     fields !! lit "pv2_total_energy" = Some (NFloat x)) ∧
  (60 < first_reg ∨ last_reg < 112 →
   get_fields_from_response pyfloat float_literal int_times_float registers
   = Raise KeyError).
Proof.
  intros Hmul Hparse.
  unfold get_fields_from_response, scaled_field. cbv zeta.
  split.
  - intros Hrange.
    field_step Hparse Hmul 60; [|lia]. field_step Hparse Hmul 63; [|lia].
    field_step Hparse Hmul 65; [|lia]. field_step Hparse Hmul 66; [|lia].
    field_step Hparse Hmul 69; [|lia]. field_step Hparse Hmul 71; [|lia].
    field_step Hparse Hmul 73; [|lia]. field_step Hparse Hmul 76; [|lia].
    field_step Hparse Hmul 79; [|lia]. field_step Hparse Hmul 80; [|lia].
    field_step Hparse Hmul 86; [|lia]. field_step Hparse Hmul 90; [|lia].
    field_step Hparse Hmul 109; [|lia]. field_step Hparse Hmul 110; [|lia].
    field_step Hparse Hmul 111; [|lia]. field_step Hparse Hmul 112; [|lia].
    do 3 eexists. split; [reflexivity|].
    split; [vm_compute; reflexivity|]. split; [reflexivity|].
    split; vm_compute; reflexivity.
  - intros Hrange.
    field_step Hparse Hmul 60; [|reflexivity]. field_step Hparse Hmul 63; [|reflexivity].
    field_step Hparse Hmul 65; [|reflexivity]. field_step Hparse Hmul 66; [|reflexivity].
    field_step Hparse Hmul 69; [|reflexivity]. field_step Hparse Hmul 71; [|reflexivity].
    field_step Hparse Hmul 73; [|reflexivity]. field_step Hparse Hmul 76; [|reflexivity].
    field_step Hparse Hmul 79; [|reflexivity]. field_step Hparse Hmul 80; [|reflexivity].
    field_step Hparse Hmul 86; [|reflexivity]. field_step Hparse Hmul 90; [|reflexivity].
    field_step Hparse Hmul 109; [|reflexivity]. field_step Hparse Hmul 110; [|reflexivity].
    field_step Hparse Hmul 111; [|reflexivity]. field_step Hparse Hmul 112; [|reflexivity].
    lia.
Qed.

Lemma symbolic_times_total (n : Z) (f : symbolic_float) :
  -2147483648 <= n <= 4294967295 → ∃ x, symbolic_times n f = Ok x.
Proof. intros _. eexists. reflexivity. Qed.

(** X19: on the register map of any accepted frame for a range that
    covers 60 to 112, [get_fields_from_response] raises nothing (the
    integers it multiplies are 32-bit values) and returns a dictionary with
    exactly its seventeen keys; [uptime] is the raw value of register 60,
    the register that [day_energy] is scaled from. *)
Theorem get_fields_on_read_range {pyfloat : Type} (float_literal : string → pyfloat)
    (int_times_float : Z → pyfloat → result pyfloat)
    (frame : bytes) (first_reg last_reg : Z) (registers : gmap Z bytes) :
  (∀ n f, -2147483648 <= n <= 4294967295 → ∃ x, int_times_float n f = Ok x) →
  parse_modbus_read_holding_registers_response frame first_reg last_reg = Ok registers →
  first_reg <= 60 → 112 <= last_reg →
  ∃ fields u,
    get_fields_from_response pyfloat float_literal int_times_float registers = Ok fields ∧
    dom fields = list_to_set field_names ∧
    read_unit16 registers 60 = Ok u ∧
    fields !! lit "uptime" = Some (NInt u).
Proof.
  intros Hmul Hparse Hfirst Hlast.
  destruct (get_fields_parsed float_literal int_times_float _ _ _ _ Hmul Hparse)
    as [Hok _].
  destruct (Hok (conj Hfirst Hlast)) as (fields & u & x & Hfields & Hdom & Hu & Huptime & _).
  eauto 6.
Qed.

Lemma get_fields_on_read_range_witness :
  ∃ fields u,
    get_fields_from_response symbolic_float symbolic_literal symbolic_times
      (parse_registers 53 (with_crc sample_full_payload) 60 53 0 ∅) = Ok fields ∧
    dom fields = list_to_set field_names ∧
    read_unit16 (parse_registers 53 (with_crc sample_full_payload) 60 53 0 ∅) 60 = Ok u ∧
    fields !! lit "uptime" = Some (NInt u).
Proof.
  apply (get_fields_on_read_range symbolic_literal symbolic_times
           (with_crc sample_full_payload) 60 112);
    [exact symbolic_times_total | vm_compute; reflexivity | lia | lia].
Defined.

(** X20: on the register map of an accepted frame for a range that leaves
    out register 60 or register 112, [get_fields_from_response] raises
    [KeyError]: it reads registers that were not requested. *)
Theorem get_fields_outside_read_range {pyfloat : Type} (float_literal : string → pyfloat)
    (int_times_float : Z → pyfloat → result pyfloat)
    (frame : bytes) (first_reg last_reg : Z) (registers : gmap Z bytes) :
  (∀ n f, -2147483648 <= n <= 4294967295 → ∃ x, int_times_float n f = Ok x) →
  parse_modbus_read_holding_registers_response frame first_reg last_reg = Ok registers →
  60 < first_reg ∨ last_reg < 112 →
  get_fields_from_response pyfloat float_literal int_times_float registers = Raise KeyError.
Proof.
  intros Hmul Hparse Hout.
  destruct (get_fields_parsed float_literal int_times_float _ _ _ _ Hmul Hparse)
    as [_ Hkey].
  exact (Hkey Hout).
Qed.

Lemma get_fields_outside_read_range_witness :
  get_fields_from_response symbolic_float symbolic_literal symbolic_times
    (parse_registers 1 (with_crc sample_payload) 73 1 0 ∅) = Raise KeyError.
Proof.
  apply (get_fields_outside_read_range symbolic_literal symbolic_times
           (with_crc sample_payload) 73 73);
    [exact symbolic_times_total | vm_compute; reflexivity | lia].
Defined.

(** ** The script *)

Lemma read_holding_registers_some_inv (first_reg last_reg : Z) (w w' : world)
    (registers : gmap Z bytes) :
  read_holding_registers first_reg last_reg w = (Ok (Some registers), w') →
  ∃ frame, parse_modbus_read_holding_registers_response frame first_reg last_reg
           = Ok registers.
Proof.
  unfold read_holding_registers, lift. rewrite M_bind_unfold.
  destruct (request_with_crc first_reg last_reg) as [req|e]; [|discriminate].
  rewrite M_bind_unfold.
  destruct (send_request req w) as [[[frame|]|e] w1]; try discriminate.
  rewrite M_bind_unfold.
  destruct (parse_modbus_read_holding_registers_response frame first_reg last_reg)
    as [m|e] eqn:Hparse; [|discriminate].
  intros [= <- <-]. eauto.
Qed.

(** X21: how the script ends.  When [read_holding_registers(60, 112)]
    raises, the exception is logged and the script ends normally; when it
    returns [None] the script exits with -1; when it returns a register
    map, the fields are always computed (no [KeyError], the map is not
    empty) and the script either calls [store_in_influxdb] with them, when
    [pv2_total_energy] is positive, or exits with -1.  Nothing is sent or
    received after the read. *)
Theorem deye_main_outcomes {pyfloat : Type} (float_literal : string → pyfloat)
    (int_times_float : Z → pyfloat → result pyfloat) (float_of_int : Z → result pyfloat)
    (float_gt_zero : pyfloat → bool) (w : world) :
  (∀ n f, -2147483648 <= n <= 4294967295 → ∃ x, int_times_float n f = Ok x) →
  match (read_holding_registers 60 112 w).1 with
  | Raise e =>
      (deye_main pyfloat float_literal int_times_float float_of_int float_gt_zero w).1
      = ExceptionLogged e
  | Ok None =>
      (deye_main pyfloat float_literal int_times_float float_of_int float_gt_zero w).1
      = Exited (-1)
  | Ok (Some registers) =>
      ∃ fields x,
        get_fields_from_response pyfloat float_literal int_times_float registers
        = Ok fields ∧
        fields !! lit "pv2_total_energy" = Some (NFloat x) ∧
        (deye_main pyfloat float_literal int_times_float float_of_int float_gt_zero w).1
        = if float_gt_zero x then StoreCalled fields else Exited (-1)
  end ∧
  (deye_main pyfloat float_literal int_times_float float_of_int float_gt_zero w).2
  = (read_holding_registers 60 112 w).2.
Proof.
  intros Hmul. unfold deye_main.
  destruct (read_holding_registers 60 112 w) as [[[registers|]|e] w'] eqn:Hread;
    cbn [fst snd]; try (split; reflexivity).
  destruct (read_holding_registers_some_inv _ _ _ _ _ Hread) as [frame Hparse].
  destruct (get_fields_parsed float_literal int_times_float _ _ _ _ Hmul Hparse)
    as [Hok _].
  destruct (Hok ltac:(lia)) as (fields & u & x & Hfields & _ & Hu & _ & Hpv2).
  assert (registers ≠ ∅) as Hne.
  { intros ->. unfold read_unit16, getitem in Hu. rewrite lookup_empty in Hu.
    discriminate. }
  destruct (decide (registers = ∅)) as [|_]; [contradiction|].
  rewrite Hfields. unfold sanity_check. rewrite Hpv2. cbn [py_float]. rewrite bind_Ok.
  split; [|destruct (float_gt_zero x); reflexivity].
  exists fields, x. split; [reflexivity|]. split; [exact Hpv2|].
  destruct (float_gt_zero x); reflexivity.
Qed.

Lemma deye_main_outcomes_witness :
  (deye_main symbolic_float symbolic_literal symbolic_times symbolic_of_int
     symbolic_gt_zero world_unrecognised).1 = Exited (-1).
Proof.
  pose proof (deye_main_outcomes symbolic_literal symbolic_times symbolic_of_int
                symbolic_gt_zero world_unrecognised symbolic_times_total) as [H _].
  assert ((read_holding_registers 60 112 world_unrecognised).1 = Ok None) as Hread
    by (vm_compute; reflexivity).
  rewrite Hread in H. exact H.
Defined.

(** ** The loop over the OBIS records *)

Lemma str_startswith_spec (s p : pystr) :
  str_startswith s p = true ↔ ∃ post, s = p ++ post.
Proof.
  revert s. induction p as [|c p IH]; intros s.
  - destruct s; simpl; split; eauto.
  - destruct s as [|d s]; simpl.
    + split; [discriminate | intros [post H]; discriminate].
    + rewrite andb_true_iff, N.eqb_eq, IH. split.
      * intros [-> [post ->]]. exists post. reflexivity.
      * intros [post [= -> ->]]. split; eauto.
Qed.

(** [needle in hay] holds exactly when [needle] occurs in [hay]. *)
Lemma str_contains_spec (hay needle : pystr) :
  str_contains hay needle = true ↔ ∃ pre post, hay = pre ++ needle ++ post.
Proof.
  induction hay as [|c hay IH]; cbn [str_contains].
  - rewrite orb_false_r, str_startswith_spec. split.
    + intros [post H]. exists [], post. exact H.
    + intros (pre & post & H). symmetry in H.
      apply app_eq_nil in H as [-> H]. apply app_eq_nil in H as [-> ->].
      exists []. reflexivity.
  - rewrite orb_true_iff, str_startswith_spec, IH. split.
    + intros [[post H] | (pre & post & H)].
      * exists [], post. exact H.
      * exists (c :: pre), post. rewrite H. reflexivity.
    + intros (pre & post & H). destruct pre as [|d pre].
      * left. exists post. exact H.
      * right. injection H as -> H. exists pre, post. exact H.
Qed.

(** X22: the loop tests the tag with [in], a substring test: every tag
    that occurs inside "0100600100ff" (the empty tag, "ff", "0100", ...)
    takes the identity branch, and every other tag is looked up in the
    mapping. *)
Theorem process_obis_substring_tag {pyfloat : Type} (float_literal : string → pyfloat)
    (int_times_float : Z → pyfloat → result pyfloat) (round_float : pyfloat → Z → pyfloat)
    (st : measurements pyfloat) (t : pystr) (v : obis_value) :
  ((∃ pre post, lit "0100600100ff" = pre ++ t ++ post) →
   process_obis pyfloat float_literal int_times_float round_float st
     {| obis := t; value := v |}
   = meter' ← parse_meter v; Ok {| values := values st; meter := meter' |}) ∧
  ((¬ ∃ pre post, lit "0100600100ff" = pre ++ t ++ post) →
   process_obis pyfloat float_literal int_times_float round_float st
     {| obis := t; value := v |}
   = match obis_mapping pyfloat float_literal !! t with
     | Some (name, sc) =>
         x ← round_scaled pyfloat int_times_float round_float v sc;
         Ok {| values := <[name := x]> (values st); meter := meter st |}
     | None => Ok st
     end).
Proof.
  pose proof (str_contains_spec (lit "0100600100ff") t) as Hspec.
  unfold process_obis. cbn [obis value].
  destruct (str_contains (lit "0100600100ff") t).
  - split; [reflexivity|]. intros Hno. exfalso. apply Hno, Hspec. reflexivity.
  - split; [|reflexivity]. intros Hsub. apply Hspec in Hsub. discriminate.
Qed.

Lemma process_obis_substring_tag_witness :
  process_obis string (fun s => s) (fun _ _ => Raise OverflowError) (fun x _ => x)
    {| values := ∅; meter := lit "1ABC1231" |}
    {| obis := lit "ff"; value := VInt 5 |}
  = Raise TypeError.
Proof.
  rewrite (proj1 (process_obis_substring_tag (fun s => s) (fun _ _ => Raise OverflowError)
                    (fun x _ => x) {| values := ∅; meter := lit "1ABC1231" |}
                    (lit "ff") (VInt 5))
             (ex_intro _ (lit "0100600100") (ex_intro _ [] eq_refl))).
  reflexivity.
Defined.

Lemma process_all_snoc {pyfloat : Type} (float_literal : string → pyfloat)
    (int_times_float : Z → pyfloat → result pyfloat) (round_float : pyfloat → Z → pyfloat)
    (entries : list obis_entry) (entry : obis_entry) :
  process_all pyfloat float_literal int_times_float round_float (entries ++ [entry])
  = st ← process_all pyfloat float_literal int_times_float round_float entries;
    process_obis pyfloat float_literal int_times_float round_float st entry.
Proof. unfold process_all. rewrite foldl_app. reflexivity. Qed.

(** What one iteration that raises nothing has done. *)
Lemma process_obis_inv {pyfloat : Type} (float_literal : string → pyfloat)
    (int_times_float : Z → pyfloat → result pyfloat) (round_float : pyfloat → Z → pyfloat)
    (st st' : measurements pyfloat) (entry : obis_entry) :
  process_obis pyfloat float_literal int_times_float round_float st entry = Ok st' →
  (str_contains (lit "0100600100ff") (obis entry) = true ∧
   values st' = values st ∧ parse_meter (value entry) = Ok (meter st')) ∨
  (str_contains (lit "0100600100ff") (obis entry) = false ∧ meter st' = meter st ∧
   ((∃ name sc x,
       obis_mapping pyfloat float_literal !! obis entry = Some (name, sc) ∧
       round_scaled pyfloat int_times_float round_float (value entry) sc = Ok x ∧
       values st' = <[name := x]> (values st)) ∨
    values st' = values st)).
Proof.
  unfold process_obis.
  destruct (str_contains (lit "0100600100ff") (obis entry)).
  - destruct (parse_meter (value entry)) as [m|e]; [|discriminate].
    rewrite bind_Ok. intros [= <-]. left. auto.
  - destruct (obis_mapping pyfloat float_literal !! obis entry) as [[name sc]|] eqn:Hlook;
      cbv beta iota zeta.
    + destruct (round_scaled pyfloat int_times_float round_float (value entry) sc)
        as [x|e] eqn:Hx; [|discriminate].
      rewrite bind_Ok. intros [= <-]. right.
      split; [reflexivity|]. split; [reflexivity|]. left. eauto 6.
    + intros [= <-]. right. auto.
Qed.

(** X23: when the loop ends without an exception, every entry of [values]
    is [round(value * scale, 3)] of one of the records, stored under the
    name the mapping gives to that record's tag, and [meter] is either
    still empty or the identity parsed from one of the records. *)
Theorem process_all_provenance {pyfloat : Type} (float_literal : string → pyfloat)
    (int_times_float : Z → pyfloat → result pyfloat) (round_float : pyfloat → Z → pyfloat)
    (entries : list obis_entry) (st : measurements pyfloat) :
  process_all pyfloat float_literal int_times_float round_float entries = Ok st →
  (∀ name x, values st !! name = Some x →
     ∃ entry sc, entry ∈ entries ∧
       str_contains (lit "0100600100ff") (obis entry) = false ∧
       obis_mapping pyfloat float_literal !! obis entry = Some (name, sc) ∧
       round_scaled pyfloat int_times_float round_float (value entry) sc = Ok x) ∧
  (meter st = [] ∨
   ∃ entry, entry ∈ entries ∧
     str_contains (lit "0100600100ff") (obis entry) = true ∧
     parse_meter (value entry) = Ok (meter st)).
Proof.
  revert st. induction entries as [|entry entries IH] using rev_ind; intros st.
  - intros [= <-]. split; [|left; reflexivity].
    intros name x H. cbn [values] in H. rewrite lookup_empty in H. discriminate.
  - rewrite process_all_snoc.
    destruct (process_all pyfloat float_literal int_times_float round_float entries)
      as [st0|e]; [|discriminate].
    rewrite bind_Ok. intros Hstep.
    destruct (IH st0 eq_refl) as [IHvalues IHmeter].
    assert (∀ entry', entry' ∈ entries → entry' ∈ entries ++ [entry]) as Hin
      by (intros; apply elem_of_app; auto).
    assert (entry ∈ entries ++ [entry]) as Hlast
      by (apply elem_of_app; right; apply list_elem_of_singleton; reflexivity).
    apply process_obis_inv in Hstep
      as [(Htag & Hvalues & Hmeter) | (Htag & Hmeter & Hvalues)].
    + split; [|right; eauto].
      intros name x H. rewrite Hvalues in H.
      destruct (IHvalues name x H) as (entry' & sc & ? & ?). eauto.
    + split.
      * intros name x H.
        destruct Hvalues as [(name' & sc & x' & Hlook & Hx & Hvalues) | Hvalues];
          rewrite Hvalues in H.
        -- destruct (decide (name' = name)) as [->|Hne].
           ++ rewrite lookup_insert_eq in H. injection H as <-. eauto 6.
           ++ rewrite lookup_insert_ne in H by exact Hne.
              destruct (IHvalues name x H) as (entry' & sc' & ? & ?). eauto.
        -- destruct (IHvalues name x H) as (entry' & sc' & ? & ?). eauto.
      * rewrite Hmeter. destruct IHmeter as [?|(entry' & ? & ?)]; [left|right]; eauto.
Qed.

Lemma process_all_provenance_witness :
  ∃ entry sc,
    entry ∈ [ {| obis := lit "0100600100ff"; value := VStr (lit "0a01414243123ff") |};
              {| obis := lit "0100100700ff"; value := VInt 1500 |} ] ∧
    str_contains (lit "0100600100ff") (obis entry) = false ∧
    obis_mapping string (fun s => s) !! obis entry = Some (lit "power_total", sc) ∧
    round_scaled string (fun _ _ => Raise OverflowError) (fun x _ => x) (value entry) sc
    = Ok (NInt 1500).
Proof.
  assert (process_all string (fun s => s) (fun _ _ => Raise OverflowError) (fun x _ => x)
            [ {| obis := lit "0100600100ff"; value := VStr (lit "0a01414243123ff") |};
              {| obis := lit "0100100700ff"; value := VInt 1500 |} ]
          = Ok {| values := <[lit "power_total" := NInt 1500]> (∅ : gmap pystr (number string));
                  meter := lit "1ABC123255" |}) as Hrun
    by (vm_compute; reflexivity).
  destruct (process_all_provenance _ _ _ _ _ Hrun) as [Hvalues _].
  apply Hvalues. vm_compute. reflexivity.
Defined.

(** Whether an iteration raises, and what, does not depend on what the
    earlier iterations stored. *)
Lemma process_obis_state_independent {pyfloat : Type} (float_literal : string → pyfloat)
    (int_times_float : Z → pyfloat → result pyfloat) (round_float : pyfloat → Z → pyfloat)
    (st1 st2 : measurements pyfloat) (entry : obis_entry) (e : exn) :
  process_obis pyfloat float_literal int_times_float round_float st1 entry = Raise e →
  process_obis pyfloat float_literal int_times_float round_float st2 entry = Raise e.
Proof.
  unfold process_obis.
  destruct (str_contains (lit "0100600100ff") (obis entry)).
  - destruct (parse_meter (value entry)); [discriminate|]. intros H. exact H.
  - destruct (obis_mapping pyfloat float_literal !! obis entry) as [[name sc]|];
      cbv beta iota zeta; [|discriminate].
    destruct (round_scaled pyfloat int_times_float round_float (value entry) sc);
      [discriminate|]. intros H. exact H.
Qed.

Lemma process_all_raised {pyfloat : Type} (float_literal : string → pyfloat)
    (int_times_float : Z → pyfloat → result pyfloat) (round_float : pyfloat → Z → pyfloat)
    (entries : list obis_entry) (e : exn) :
  foldl (fun st entry =>
           st ← st; process_obis pyfloat float_literal int_times_float round_float st entry)
        (Raise e) entries = Raise e.
Proof. induction entries as [|entry entries IH]; [reflexivity|]. exact IH. Qed.

(** X24: the first record whose processing raises ends the loop with that
    exception, whatever the records before it stored and whatever follows:
    [store_in_influxdb] is not reached. *)
Theorem process_all_first_failure {pyfloat : Type} (float_literal : string → pyfloat)
    (int_times_float : Z → pyfloat → result pyfloat) (round_float : pyfloat → Z → pyfloat)
    (before after : list obis_entry) (entry : obis_entry) (e : exn) :
  Forall (fun entry' =>
            ∃ st', process_obis pyfloat float_literal int_times_float round_float
                     {| values := ∅; meter := [] |} entry' = Ok st') before →
  process_obis pyfloat float_literal int_times_float round_float
    {| values := ∅; meter := [] |} entry = Raise e →
  process_all pyfloat float_literal int_times_float round_float (before ++ entry :: after)
  = Raise e.
Proof.
  intros Hbefore Hentry.
  assert (∃ st, process_all pyfloat float_literal int_times_float round_float before = Ok st)
    as [st Hst].
  { induction before as [|entry' before IH] using rev_ind; [eexists; reflexivity|].
    apply Forall_app in Hbefore as [Hbefore Hlast].
    destruct (IH Hbefore) as [st Hst].
    rewrite process_all_snoc, Hst, bind_Ok.
    apply Forall_cons in Hlast as [[st' Hok] _].
    destruct (process_obis pyfloat float_literal int_times_float round_float st entry')
      as [st''|e'] eqn:Hstep; [eauto|].
    apply (process_obis_state_independent _ _ _ _ {| values := ∅; meter := [] |})
      in Hstep.
    congruence. }
  unfold process_all in *. rewrite foldl_app. cbn [foldl]. rewrite Hst, bind_Ok.
  rewrite (process_obis_state_independent _ _ _ _ st _ _ Hentry).
  apply process_all_raised.
Qed.

Lemma process_all_first_failure_witness :
  process_all string (fun s => s) (fun _ _ => Raise OverflowError) (fun x _ => x)
    ([ {| obis := lit "0100100700ff"; value := VInt 1500 |} ]
     ++ {| obis := lit "0100240700ff"; value := VStr (lit "01") |}
     :: [ {| obis := lit "0100380700ff"; value := VInt 7 |} ])
  = Raise TypeError.
Proof.
  apply (process_all_first_failure (fun s => s) (fun _ _ => Raise OverflowError)
           (fun x _ => x)).
  - apply Forall_cons. split; [eexists; vm_compute; reflexivity | apply Forall_nil; exact I].
  - vm_compute. reflexivity.
Defined.

(** ** The meter identity *)

Lemma py_slice_from {A} (l : list A) (i : Z) :
  0 <= i → py_slice l (Some i) None = drop (Z.to_nat i) l.
Proof.
  intros Hi. unfold py_slice, clamp_index. cbn [from_option]. unfold id.
  destruct (Z.ltb_spec i 0); [lia|].
  destruct (Z.ltb_spec (Z.of_nat (length l)) 0); [lia|].
  rewrite Z.min_id.
  destruct (Z.le_gt_cases i (Z.of_nat (length l))).
  - rewrite Z.min_l by lia. apply take_ge. rewrite length_drop. lia.
  - rewrite Z.min_r by lia. rewrite Z.sub_diag. rewrite !drop_ge by lia. reflexivity.
Qed.


Lemma py_int_shape (base : Z) (s : pystr) :
  ∃ (negative prefixed : bool) (digits : pystr),
    py_int base s = match parse_digits base digits 0 prefixed false with
                    | Some n => Ok (if negative then - n else n)
                    | None => Raise int_error
                    end.
Proof.
  unfold py_int.
  match goal with |- context [let '(_, _) := ?X in _] => destruct X as [negative s1] end.
  match goal with |- context [let '(_, _) := ?X in _] => destruct X as [prefixed s2] end.
  eauto.
Qed.

(** [int()] raises nothing but [ValueError]. *)
Lemma py_int_raises (base : Z) (s : pystr) (e : exn) :
  py_int base s = Raise e → e = int_error.
Proof.
  destruct (py_int_shape base s) as (negative & prefixed & digits & ->).
  destruct (parse_digits base digits 0 prefixed false); congruence.
Qed.

Lemma fromhex_raises (s : pystr) (e : exn) : fromhex s = Raise e → e = fromhex_error.
Proof.
  remember (length s) as n eqn:Hn. revert s Hn.
  induction n as [n IH] using lt_wf_ind. intros s Hn.
  destruct s as [|c rest]; [discriminate|].
  cbn [fromhex]. destruct (hex_isspace c).
  { apply (IH (length rest)); [subst; simpl; lia | reflexivity]. }
  destruct (hex_value c) as [top|]; destruct rest as [|d rest'];
    try (intros [= <-]; reflexivity).
  destruct (hex_value d) as [bot|]; [|intros [= <-]; reflexivity].
  destruct (fromhex rest') as [bs|e'] eqn:Hrest; [discriminate|].
  intros [= <-]. apply (IH (length rest')) in Hrest; [exact Hrest | subst; simpl; lia | reflexivity].
Qed.

Lemma decode_utf8_raises (bs : bytes) (e : exn) :
  decode_utf8 bs = Raise e → e = utf8_error.
Proof.
  remember (length bs) as n eqn:Hn. revert bs Hn.
  induction n as [n IH] using lt_wf_ind. intros bs Hn.
  destruct bs as [|b0 r0]; [discriminate|].
  cbn [decode_utf8]. cbv zeta.
  repeat match goal with
         | |- context [if ?c then _ else _] => destruct c
         | |- context [match ?l with [] => _ | _ :: _ => _ end] => destruct l
         end;
    try (intros [= <-]; reflexivity);
    match goal with
    | |- context [decode_utf8 ?r] =>
        destruct (decode_utf8 r) as [s|e'] eqn:Hrest; [discriminate|];
        intros [= <-];
        apply (IH (length r)) in Hrest; [exact Hrest | subst; simpl; lia | reflexivity]
    end.
Qed.

(** X25: a value text of at most 13 characters has no serial part:
    parsing the identity raises [ValueError] (from [int] on the empty
    text, unless an earlier field already raised one). *)
Theorem parse_meter_short_text (s : pystr) :
  (length s <= 13)%nat → ∃ msg, parse_meter (VStr s) = Raise (ValueError msg).
Proof.
  intros Hlen. unfold parse_meter.
  assert (py_slice (py_slice s (Some 2) None) (Some 11) None = []) as ->.
  { rewrite !py_slice_from by lia. rewrite drop_drop. apply drop_ge. lia. }
  destruct (py_int 10 _) as [k|e] eqn:Hcounter;
    [|apply py_int_raises in Hcounter; subst e; eexists; reflexivity].
  rewrite bind_Ok.
  destruct (fromhex _) as [man|e] eqn:Hman;
    [|apply fromhex_raises in Hman; subst e; eexists; reflexivity].
  rewrite bind_Ok.
  destruct (decode_utf8 man) as [text|e] eqn:Htext;
    [|apply decode_utf8_raises in Htext; subst e; eexists; reflexivity].
  rewrite bind_Ok. eexists. reflexivity.
Qed.

Lemma parse_meter_short_text_witness :
  ∃ msg, parse_meter (VStr (lit "0a01414243123")) = Raise (ValueError msg).
Proof. apply (parse_meter_short_text (lit "0a01414243123")). simpl. lia. Defined.


